(** * CPU_emulator.c: a 16-bit register machine, its assembler and its
      fetch-decode-execute loop

    Shallow embedding of [src/chapter03/CPU_emulator.c].

    Integer model.  Every object of the program has type [short]; every
    expression is evaluated in [int] after the usual promotions and converted
    back to [short] on assignment, on argument passing and on [return].  The
    file header fixes the toolchain (gcc / clang), so:
    - [short] is 16 bits, two's complement: a [short] is a [Z] in
      [-32768, 32767];
    - [int] is 32 bits.  No expression of the program leaves the [int] range
      when its operands are [short]s, so [int] arithmetic is plain [Z]
      arithmetic;
    - the conversion [int -> short] reduces modulo 2^16 ([to_short]);
    - [>>] on a signed operand is the arithmetic shift ([Z.shiftr], which
      rounds towards minus infinity); [<<] is [Z.shiftl], also on a negative
      operand, where gcc and clang shift the two's complement bits;
    - [&] and [|] are [Z.land] and [Z.lor] (two's complement on [Z]).

    Arrays.  [reg], [rom] and [ram] are lists; an access is written with
    stdpp's lookup and insert behind an explicit range test.  The C program
    has no range test of its own: an access outside the array has no defined
    behaviour, which the embedding records as [None]. *)

From Stdlib Require Import ZArith List Bool Lia.
From stdpp Require Import base list.
Import ListNotations.
Local Open Scope Z_scope.

(** ** C integers *)

Module CInt.

(** Conversion of an [int] value to [short]. *)
Definition to_short (z : Z) : Z := (z + 32768) mod 65536 - 32768.

(** The values a [short] can hold. *)
Definition is_short (z : Z) : Prop := -32768 <= z < 32768.

(** The 16 bits of a [short], read as an unsigned number. *)
Definition bits16 (z : Z) : Z := z mod 65536.

End CInt.
Import CInt.

(** ** Opcodes and register numbers ([#define]s) *)

Definition MOV : Z := 0.
Definition ADD : Z := 1.
Definition SUB : Z := 2.
Definition AND : Z := 3.
Definition OR  : Z := 4.
Definition SL  : Z := 5.
Definition SR  : Z := 6.
Definition SRA : Z := 7.
Definition LDL : Z := 8.
Definition LDH : Z := 9.
Definition CMP : Z := 10.
Definition JE  : Z := 11.
Definition JMP : Z := 12.
Definition LD  : Z := 13.
Definition ST  : Z := 14.
Definition HLT : Z := 15.

Definition REG0 : Z := 0.
Definition REG1 : Z := 1.
Definition REG2 : Z := 2.
Definition REG3 : Z := 3.
Definition REG4 : Z := 4.
Definition REG5 : Z := 5.
Definition REG6 : Z := 6.
Definition REG7 : Z := 7.

(** ** Encoders (the assembler's instruction builders) *)

Module Asm.

Definition mov (ra rb : Z) : Z :=
  to_short (Z.lor (Z.lor (Z.shiftl MOV 11) (Z.shiftl ra 8)) (Z.shiftl rb 5)).
Definition add (ra rb : Z) : Z :=
  to_short (Z.lor (Z.lor (Z.shiftl ADD 11) (Z.shiftl ra 8)) (Z.shiftl rb 5)).
Definition sub (ra rb : Z) : Z :=
  to_short (Z.lor (Z.lor (Z.shiftl SUB 11) (Z.shiftl ra 8)) (Z.shiftl rb 5)).
Definition and (ra rb : Z) : Z :=
  to_short (Z.lor (Z.lor (Z.shiftl AND 11) (Z.shiftl ra 8)) (Z.shiftl rb 5)).
Definition or (ra rb : Z) : Z :=
  to_short (Z.lor (Z.lor (Z.shiftl OR 11) (Z.shiftl ra 8)) (Z.shiftl rb 5)).
Definition sl (ra : Z) : Z :=
  to_short (Z.lor (Z.shiftl SL 11) (Z.shiftl ra 8)).
Definition sr (ra : Z) : Z :=
  to_short (Z.lor (Z.shiftl SR 11) (Z.shiftl ra 8)).
Definition sra (ra : Z) : Z :=
  to_short (Z.lor (Z.shiftl SRA 11) (Z.shiftl ra 8)).
Definition ldl (ra ival : Z) : Z :=
  to_short (Z.lor (Z.lor (Z.shiftl LDL 11) (Z.shiftl ra 8)) (Z.land ival 0x00ff)).
Definition ldh (ra ival : Z) : Z :=
  to_short (Z.lor (Z.lor (Z.shiftl LDH 11) (Z.shiftl ra 8)) (Z.land ival 0x00ff)).
Definition cmp (ra rb : Z) : Z :=
  to_short (Z.lor (Z.lor (Z.shiftl CMP 11) (Z.shiftl ra 8)) (Z.shiftl rb 5)).
Definition je (addr : Z) : Z :=
  to_short (Z.lor (Z.shiftl JE 11) (Z.land addr 0x00ff)).
Definition jmp (addr : Z) : Z :=
  to_short (Z.lor (Z.shiftl JMP 11) (Z.land addr 0x00ff)).
Definition ld (ra addr : Z) : Z :=
  to_short (Z.lor (Z.lor (Z.shiftl LD 11) (Z.shiftl ra 8)) (Z.land addr 0x00ff)).
Definition st (ra addr : Z) : Z :=
  to_short (Z.lor (Z.lor (Z.shiftl ST 11) (Z.shiftl ra 8)) (Z.land addr 0x00ff)).
Definition hlt : Z :=
  to_short (Z.shiftl HLT 11).

End Asm.

(** ** Decoders *)

(** [return (ir >> 11);] : no mask, the shift is the signed one. *)
Definition op_code (ir : Z) : Z := to_short (Z.shiftr ir 11).
Definition op_regA (ir : Z) : Z := to_short (Z.land (Z.shiftr ir 8) 0x0007).
Definition op_regB (ir : Z) : Z := to_short (Z.land (Z.shiftr ir 5) 0x0007).
Definition op_data (ir : Z) : Z := to_short (Z.land ir 0x00ff).
Definition op_addr (ir : Z) : Z := to_short (Z.land ir 0x00ff).

(** The opcode field of the instruction format, bits 15..11 of the word. *)
Definition opcode_field (ir : Z) : Z :=
  Z.land (Z.shiftr (bits16 ir) 11) 0x1F.

(** ** Machine state *)

(** The globals [reg], [rom], [ram] and the locals [pc], [flag_eq] of [main].
    ([ir] is assigned at the head of every cycle and is passed along
    explicitly.) *)
Record cpu : Type := Cpu {
  reg : list Z;
  rom : list Z;
  ram : list Z;
  pc : Z;
  flag_eq : Z
}.

Definition set_reg (s : cpu) (r : list Z) : cpu :=
  Cpu r (rom s) (ram s) (pc s) (flag_eq s).
Definition set_ram (s : cpu) (m : list Z) : cpu :=
  Cpu (reg s) (rom s) m (pc s) (flag_eq s).
Definition set_pc (s : cpu) (p : Z) : cpu :=
  Cpu (reg s) (rom s) (ram s) p (flag_eq s).
Definition set_flag_eq (s : cpu) (f : Z) : cpu :=
  Cpu (reg s) (rom s) (ram s) (pc s) f.

(** *** Array accesses *)

Definition in_bounds (a : list Z) (i : Z) : bool :=
  (0 <=? i) && (i <? Z.of_nat (length a)).

(** [a[i]] as an rvalue. *)
Definition aget (a : list Z) (i : Z) : option Z :=
  if in_bounds a i then a !! Z.to_nat i else None.

(** [a[i] = v]. *)
Definition aset (a : list Z) (i v : Z) : option (list Z) :=
  if in_bounds a i then Some (<[Z.to_nat i := v]> a) else None.

Definition bind {A B : Type} (m : option A) (k : A -> option B) : option B :=
  match m with
  | Some x => k x
  | None => None
  end.

Notation "'let*' x ':=' m 'in' k" := (bind m (fun x => k))
  (at level 10, x name, m at level 100, k at level 200).

(** [reg[op_regA(ir)] = v]. *)
Definition write_regA (ir v : Z) (s : cpu) : option cpu :=
  let* r := aset (reg s) (op_regA ir) v in Some (set_reg s r).

(** ** The interpreter *)

(** The [switch] of [main]; [s] already carries the incremented [pc]. *)
Definition execute (ir : Z) (s : cpu) : option cpu :=
  let opc := op_code ir in
  if opc =? MOV then
    let* b := aget (reg s) (op_regB ir) in
    write_regA ir b s
  else if opc =? ADD then
    let* a := aget (reg s) (op_regA ir) in
    let* b := aget (reg s) (op_regB ir) in
    write_regA ir (to_short (a + b)) s
  else if opc =? SUB then
    let* a := aget (reg s) (op_regA ir) in
    let* b := aget (reg s) (op_regB ir) in
    write_regA ir (to_short (a - b)) s
  else if opc =? AND then
    let* a := aget (reg s) (op_regA ir) in
    let* b := aget (reg s) (op_regB ir) in
    write_regA ir (to_short (Z.land a b)) s
  else if opc =? OR then
    let* a := aget (reg s) (op_regA ir) in
    let* b := aget (reg s) (op_regB ir) in
    write_regA ir (to_short (Z.lor a b)) s
  else if opc =? SL then
    let* a := aget (reg s) (op_regA ir) in
    write_regA ir (to_short (Z.shiftl a 1)) s
  else if opc =? SR then
    let* a := aget (reg s) (op_regA ir) in
    write_regA ir (to_short (Z.shiftr a 1)) s
  else if opc =? SRA then
    let* a := aget (reg s) (op_regA ir) in
    write_regA ir (to_short (Z.lor (Z.land a 0x8000) (Z.shiftr a 1))) s
  else if opc =? LDL then
    let* a := aget (reg s) (op_regA ir) in
    write_regA ir
      (to_short (Z.lor (Z.land a 0xff00) (Z.land (op_data ir) 0x00ff))) s
  else if opc =? LDH then
    let* a := aget (reg s) (op_regA ir) in
    write_regA ir
      (to_short (Z.lor (Z.shiftl (op_data ir) 8) (Z.land a 0x00ff))) s
  else if opc =? CMP then
    let* a := aget (reg s) (op_regA ir) in
    let* b := aget (reg s) (op_regB ir) in
    Some (set_flag_eq s (if a =? b then 1 else 0))
  else if opc =? JE then
    Some (if flag_eq s =? 1 then set_pc s (op_addr ir) else s)
  else if opc =? JMP then
    Some (set_pc s (op_addr ir))
  else if opc =? LD then
    let* v := aget (ram s) (op_addr ir) in
    write_regA ir v s
  else if opc =? ST then
    let* a := aget (reg s) (op_regA ir) in
    let* m := aset (ram s) (op_addr ir) a in
    Some (set_ram s m)
  else
    (* HLT has no [case] of its own: it takes the [default] branch too *)
    Some s.

(** One line of the trace: the arguments of the [printf] in the loop. *)
Record trace_line : Type := TraceLine {
  t_pc : Z;
  t_ir : Z;
  t_reg0 : Z;
  t_reg1 : Z;
  t_reg2 : Z;
  t_reg3 : Z
}.

Definition fetch (s : cpu) : option Z := aget (rom s) (pc s).

Definition trace (ir : Z) (s : cpu) : option trace_line :=
  let* r0 := aget (reg s) 0 in
  let* r1 := aget (reg s) 1 in
  let* r2 := aget (reg s) 2 in
  let* r3 := aget (reg s) 3 in
  Some (TraceLine (pc s) ir r0 r1 r2 r3).

(** One pass through the body of the [do ... while]: the trace line, the
    state after the [switch], and the value of the loop condition
    [op_code(ir) != HLT]. *)
Definition cycle (s : cpu) : option (trace_line * cpu * bool) :=
  let* ir := fetch s in
  let* t := trace ir s in
  let* s' := execute ir (set_pc s (to_short (pc s + 1))) in
  Some (t, s', negb (op_code ir =? HLT)).

(** How a bounded run of the loop ends. *)
Inductive outcome : Type :=
| Halted (s : cpu) (tr : list trace_line)   (* the loop condition was false *)
| Running (s : cpu) (tr : list trace_line)  (* cycles left to do, no fuel *)
| Undefined (s : cpu) (tr : list trace_line). (* an access outside an array *)

(** The [do ... while] loop, at most [fuel] cycles; [tr] is the trace printed
    so far. *)
Fixpoint loop (fuel : nat) (s : cpu) (tr : list trace_line) : outcome :=
  match fuel with
  | O => Running s tr
  | S fuel' =>
      match cycle s with
      | None => Undefined s tr
      | Some (t, s', again) =>
          if again then loop fuel' s' (tr ++ [t])
          else Halted s' (tr ++ [t])
      end
  end.

(** *** The program loader *)

Definition assembler (rom : list Z) : list Z :=
  let rom := <[0%nat  := Asm.ldh REG0 0]> rom in
  let rom := <[1%nat  := Asm.ldl REG0 0]> rom in
  let rom := <[2%nat  := Asm.ldh REG1 0]> rom in
  let rom := <[3%nat  := Asm.ldl REG1 1]> rom in
  let rom := <[4%nat  := Asm.ldh REG2 0]> rom in
  let rom := <[5%nat  := Asm.ldl REG2 0]> rom in
  let rom := <[6%nat  := Asm.ldh REG3 0]> rom in
  let rom := <[7%nat  := Asm.ldl REG3 10]> rom in
  let rom := <[8%nat  := Asm.add REG2 REG1]> rom in
  let rom := <[9%nat  := Asm.add REG0 REG2]> rom in
  let rom := <[10%nat := Asm.st REG0 64]> rom in
  let rom := <[11%nat := Asm.cmp REG2 REG3]> rom in
  let rom := <[12%nat := Asm.je 14]> rom in
  let rom := <[13%nat := Asm.jmp 8]> rom in
  let rom := <[14%nat := Asm.hlt]> rom in
  rom.

(** Objects with static storage start as zeros. *)
Definition zeros (n : nat) : list Z := repeat 0 n.

(** The state in which [main] enters the loop when the instruction memory
    holds [image]: [pc = 0; flag_eq = 0;] over zeroed registers and RAM. *)
Definition boot (image : list Z) : cpu :=
  Cpu (zeros 8) image (zeros 256) 0 0.

(** [main], cut off after [fuel] cycles: the trace and, once the loop has
    ended, the number printed by the last [printf] ([ram[64]]). *)
Definition main (fuel : nat) : option (list trace_line * Z) :=
  match loop fuel (boot (assembler (zeros 256))) [] with
  | Halted s tr => let* v := aget (ram s) 64 in Some (tr, v)
  | _ => None
  end.

(** An instruction memory whose first cells hold [prog], the rest being the
    zeros of static storage. *)
Definition rom_of (prog : list Z) : list Z :=
  prog ++ zeros (256 - length prog).

(** The arrays have their declared sizes. *)
Definition well_formed (s : cpu) : Prop :=
  length (reg s) = 8%nat /\ length (rom s) = 256%nat /\ length (ram s) = 256%nat.

(** *** What a decoded word is expected to give back, per operand format *)

Definition decodes_rr (w opc ra rb : Z) : Prop :=
  op_code w = opc /\ op_regA w = ra /\ op_regB w = rb.
Definition decodes_r (w opc ra : Z) : Prop :=
  op_code w = opc /\ op_regA w = ra.
Definition decodes_ri (w opc ra imm : Z) : Prop :=
  op_code w = opc /\ op_regA w = ra /\ op_data w = imm /\ op_addr w = imm.
Definition decodes_i (w opc imm : Z) : Prop :=
  op_code w = opc /\ op_data w = imm /\ op_addr w = imm.

Definition decodes_rrb (w opc ra rb : Z) : bool :=
  (op_code w =? opc) && (op_regA w =? ra) && (op_regB w =? rb).
Definition decodes_rb (w opc ra : Z) : bool :=
  (op_code w =? opc) && (op_regA w =? ra).
Definition decodes_rib (w opc ra imm : Z) : bool :=
  (op_code w =? opc) && (op_regA w =? ra) && (op_data w =? imm)
  && (op_addr w =? imm).
Definition decodes_ib (w opc imm : Z) : bool :=
  (op_code w =? opc) && (op_data w =? imm) && (op_addr w =? imm).

(** *** Checking a predicate on a whole interval *)

(** [p lo && p (lo + 1) && ... && p (lo + n - 1)]. *)
Fixpoint all_from (n : nat) (lo : Z) (p : Z -> bool) : bool :=
  match n with
  | O => true
  | S k => p lo && all_from k (lo + 1) p
  end.

Definition all_regs (p : Z -> bool) : bool := all_from 8 0 p.
Definition all_bytes (p : Z -> bool) : bool := all_from 256 0 p.
Definition all_shorts (p : Z -> bool) : bool :=
  all_from (Z.to_nat 65536) (-32768) p.

(** *** The encoders, checked on all operands in range *)

(** A two-register encoder [enc] of opcode [opc] decodes back on all 64
    register pairs. *)
Definition rr_ok (enc : Z -> Z -> Z) (opc : Z) : bool :=
  all_regs (fun ra => all_regs (fun rb => decodes_rrb (enc ra rb) opc ra rb)).
Definition r_ok (enc : Z -> Z) (opc : Z) : bool :=
  all_regs (fun ra => decodes_rb (enc ra) opc ra).
Definition ri_ok (enc : Z -> Z -> Z) (opc : Z) : bool :=
  all_regs (fun ra => all_bytes (fun imm => decodes_rib (enc ra imm) opc ra imm)).
Definition i_ok (enc : Z -> Z) (opc : Z) : bool :=
  all_bytes (fun imm => decodes_ib (enc imm) opc imm).

(** *** Truncation of an operand to a field *)

Definition trunc8 (z : Z) : Z := z mod 2 ^ 8.
Definition trunc3 (z : Z) : Z := z mod 2 ^ 3.

(** *** What the shift instructions store, on the 16 bits of the register *)

(** One position to the right, bit 15 left where it was: the value that
    [(x & 0x8000) | (x >> 1)] has on an unsigned 16-bit [x]. *)
Definition shr_keep_sign (u : Z) : Z :=
  Z.lor (Z.land u 0x8000) (Z.shiftr u 1).

(** One position to the right, bit 15 cleared. *)
Definition shr_zero_fill (u : Z) : Z := Z.shiftr u 1.

(** *** Programs *)

(** The state in which the loop starts in [main]. *)
Definition bundled : cpu := boot (assembler (zeros 256)).

(** [LDH REG0, 0x80; LDL REG0, 0x00; <shift> REG0; HLT]. *)
Definition shift_program (shift : Z -> Z) : list Z :=
  [Asm.ldh REG0 128; Asm.ldl REG0 0; shift REG0; Asm.hlt].

(** A state whose [reg[0]] holds 0x8000, the other cells being zero. *)
Definition reg0_is_0x8000 : cpu :=
  Cpu (to_short 0x8000 :: zeros 7) (zeros 256) (zeros 256) 0 0.

(** A word whose bit 15 is set, followed by [HLT]. *)
Definition stray_word_program : list Z := [to_short 0x8000; Asm.hlt].

(** [prog], loaded at address 0, halts within [fuel] cycles in a state that
    satisfies [P]. *)
Definition halts_with (prog : list Z) (fuel : nat) (P : cpu -> Prop) : Prop :=
  match loop fuel (boot (rom_of prog)) [] with
  | Halted s _ => P s
  | _ => False
  end.

(** Splits [execute ir s = Some s'] into the cases of the [switch]; each
    case is left with the equations of its accesses. *)
Ltac by_opcode H :=
  unfold execute, write_regA, bind in H;
  repeat match type of H with
         | context [if ?c then _ else _] => destruct c eqn:?
         end;
  repeat match type of H with
         | context [match ?x with _ => _ end] => destruct x eqn:?
         end;
  try discriminate H;
  injection H as <-.

(** Once the opcode is known, settles the tests of the [switch] that compare
    two constants. *)
Ltac known_opcode :=
  repeat match goal with
         | |- context [?x =? ?y] =>
             let b := eval vm_compute in (x =? y) in
             match b with
             | true => change (x =? y) with true
             | false => change (x =? y) with false
             end
         end;
  cbv iota.

(** *** Reading the end of a bounded run *)

Definition outcome_state (o : outcome) : cpu :=
  match o with
  | Halted s _ | Running s _ | Undefined s _ => s
  end.

Definition outcome_trace (o : outcome) : list trace_line :=
  match o with
  | Halted _ tr | Running _ tr | Undefined _ tr => tr
  end.

(** Registers, data memory and [pc] hold values of a [short]; [flag_eq] is
    one of the two values [CMP] assigns. *)
Definition short_cells (s : cpu) : Prop :=
  Forall is_short (reg s) /\ Forall is_short (ram s) /\
  is_short (pc s) /\ (flag_eq s = 0 \/ flag_eq s = 1).

(** The state [s] over another instruction memory. *)
Definition with_rom (s : cpu) (r : list Z) : cpu :=
  Cpu (reg s) r (ram s) (pc s) (flag_eq s).

(** Two instructions of the [switch], one after the other. *)
Definition execute2 (ir1 ir2 : Z) (s : cpu) : option cpu :=
  let* s1 := execute ir1 s in execute ir2 s1.

(** * Properties *)

(** ** Intervals *)

Lemma all_from_spec (n : nat) (lo : Z) (p : Z -> bool) :
  all_from n lo p = true ->
  forall z, lo <= z < lo + Z.of_nat n -> p z = true.
Proof.
  revert lo. induction n as [|k IH]; intros lo Hall z Hz.
  - simpl in Hz. lia.
  - simpl in Hall. apply andb_true_iff in Hall as [Hlo Hrest].
    destruct (Z.eq_dec z lo) as [->|Hne]; [exact Hlo|].
    apply (IH (lo + 1) Hrest). lia.
Qed.

Lemma all_regs_spec (p : Z -> bool) :
  all_regs p = true -> forall r, 0 <= r <= 7 -> p r = true.
Proof.
  intros H r Hr. apply (all_from_spec 8 0 p H). simpl. lia.
Qed.

Lemma all_bytes_spec (p : Z -> bool) :
  all_bytes p = true -> forall b, 0 <= b <= 255 -> p b = true.
Proof.
  intros H b Hb. apply (all_from_spec 256 0 p H). lia.
Qed.

Lemma all_from_Z_spec (n lo : Z) (p : Z -> bool) :
  all_from (Z.to_nat n) lo p = true ->
  forall z, lo <= z < lo + n -> p z = true.
Proof.
  intros H z Hz. apply (all_from_spec _ _ p H). lia.
Qed.

Lemma all_shorts_spec (p : Z -> bool) :
  all_shorts p = true -> forall z, is_short z -> p z = true.
Proof.
  unfold all_shorts, is_short. intros H z Hz.
  eapply all_from_Z_spec; [exact H | lia].
Qed.

(** ** C integers *)

Lemma to_short_id (z : Z) : is_short z -> to_short z = z.
Proof.
  unfold is_short, to_short. intros Hz.
  rewrite Z.mod_small; lia.
Qed.

Lemma to_short_is_short (z : Z) : is_short (to_short z).
Proof.
  unfold is_short, to_short.
  pose proof (Z.mod_pos_bound (z + 32768) 65536 ltac:(lia)). lia.
Qed.

Lemma bits16_range (z : Z) : 0 <= bits16 z < 65536.
Proof. unfold bits16. apply Z.mod_pos_bound. lia. Qed.

Lemma bits16_to_short (z : Z) : bits16 (to_short z) = bits16 z.
Proof.
  unfold bits16, to_short.
  rewrite Zminus_mod, Zmod_mod, <- Zminus_mod.
  f_equal. lia.
Qed.

Lemma land_byte_range (z : Z) : 0 <= Z.land z 255 <= 255.
Proof.
  assert (H : Z.land z 255 = z mod 256) by (apply (Z.land_ones z 8); lia).
  rewrite H. pose proof (Z.mod_pos_bound z 256). lia.
Qed.

Lemma land_reg_range (z : Z) : 0 <= Z.land z 7 <= 7.
Proof.
  assert (H : Z.land z 7 = z mod 8) by (apply (Z.land_ones z 3); lia).
  rewrite H. pose proof (Z.mod_pos_bound z 8). lia.
Qed.

Lemma land_byte_idem (z : Z) : Z.land (Z.land z 255) 255 = Z.land z 255.
Proof. rewrite <- Z.land_assoc. reflexivity. Qed.

(** ** Decoders: the fields are in range for every word *)

Lemma op_regA_range (ir : Z) : 0 <= op_regA ir <= 7.
Proof.
  unfold op_regA. pose proof (land_reg_range (Z.shiftr ir 8)).
  rewrite to_short_id; [lia | unfold is_short; lia].
Qed.

Lemma op_regB_range (ir : Z) : 0 <= op_regB ir <= 7.
Proof.
  unfold op_regB. pose proof (land_reg_range (Z.shiftr ir 5)).
  rewrite to_short_id; [lia | unfold is_short; lia].
Qed.

Lemma op_addr_range (ir : Z) : 0 <= op_addr ir <= 255.
Proof.
  unfold op_addr. pose proof (land_byte_range ir).
  rewrite to_short_id; [lia | unfold is_short; lia].
Qed.

Lemma op_data_range (ir : Z) : 0 <= op_data ir <= 255.
Proof. exact (op_addr_range ir). Qed.

(** ** The codec *)

Section Codec.

Lemma decodes_rrb_sound w opc ra rb :
  decodes_rrb w opc ra rb = true -> decodes_rr w opc ra rb.
Proof.
  unfold decodes_rrb, decodes_rr. rewrite !andb_true_iff, !Z.eqb_eq. tauto.
Qed.

Lemma decodes_rb_sound w opc ra :
  decodes_rb w opc ra = true -> decodes_r w opc ra.
Proof.
  unfold decodes_rb, decodes_r. rewrite !andb_true_iff, !Z.eqb_eq. tauto.
Qed.

Lemma decodes_rib_sound w opc ra imm :
  decodes_rib w opc ra imm = true -> decodes_ri w opc ra imm.
Proof.
  unfold decodes_rib, decodes_ri. rewrite !andb_true_iff, !Z.eqb_eq. tauto.
Qed.

Lemma decodes_ib_sound w opc imm :
  decodes_ib w opc imm = true -> decodes_i w opc imm.
Proof.
  unfold decodes_ib, decodes_i. rewrite !andb_true_iff, !Z.eqb_eq. tauto.
Qed.

Lemma rr_ok_sound enc opc :
  rr_ok enc opc = true ->
  forall ra rb, 0 <= ra <= 7 -> 0 <= rb <= 7 ->
  decodes_rr (enc ra rb) opc ra rb.
Proof.
  intros H ra rb Ha Hb. apply decodes_rrb_sound.
  pose proof (all_regs_spec _ H ra Ha) as H1. cbv beta in H1.
  exact (all_regs_spec _ H1 rb Hb).
Qed.

Lemma r_ok_sound enc opc :
  r_ok enc opc = true ->
  forall ra, 0 <= ra <= 7 -> decodes_r (enc ra) opc ra.
Proof.
  intros H ra Ha. apply decodes_rb_sound. exact (all_regs_spec _ H ra Ha).
Qed.

Lemma ri_ok_sound enc opc :
  ri_ok enc opc = true ->
  forall ra imm, 0 <= ra <= 7 -> 0 <= imm <= 255 ->
  decodes_ri (enc ra imm) opc ra imm.
Proof.
  intros H ra imm Ha Hi. apply decodes_rib_sound.
  pose proof (all_regs_spec _ H ra Ha) as H1. cbv beta in H1.
  exact (all_bytes_spec _ H1 imm Hi).
Qed.

Lemma i_ok_sound enc opc :
  i_ok enc opc = true ->
  forall imm, 0 <= imm <= 255 -> decodes_i (enc imm) opc imm.
Proof.
  intros H imm Hi. apply decodes_ib_sound. exact (all_bytes_spec _ H imm Hi).
Qed.

Lemma mov_ok : rr_ok Asm.mov MOV = true.
Proof. vm_compute. reflexivity. Qed.
Lemma add_ok : rr_ok Asm.add ADD = true.
Proof. vm_compute. reflexivity. Qed.
Lemma sub_ok : rr_ok Asm.sub SUB = true.
Proof. vm_compute. reflexivity. Qed.
Lemma and_ok : rr_ok Asm.and AND = true.
Proof. vm_compute. reflexivity. Qed.
Lemma or_ok  : rr_ok Asm.or OR = true.
Proof. vm_compute. reflexivity. Qed.
Lemma cmp_ok : rr_ok Asm.cmp CMP = true.
Proof. vm_compute. reflexivity. Qed.
Lemma sl_ok  : r_ok Asm.sl SL = true.
Proof. vm_compute. reflexivity. Qed.
Lemma sr_ok  : r_ok Asm.sr SR = true.
Proof. vm_compute. reflexivity. Qed.
Lemma sra_ok : r_ok Asm.sra SRA = true.
Proof. vm_compute. reflexivity. Qed.
Lemma ldl_ok : ri_ok Asm.ldl LDL = true.
Proof. vm_compute. reflexivity. Qed.
Lemma ldh_ok : ri_ok Asm.ldh LDH = true.
Proof. vm_compute. reflexivity. Qed.
Lemma ld_ok  : ri_ok Asm.ld LD = true.
Proof. vm_compute. reflexivity. Qed.
Lemma st_ok  : ri_ok Asm.st ST = true.
Proof. vm_compute. reflexivity. Qed.
Lemma je_ok  : i_ok Asm.je JE = true.
Proof. vm_compute. reflexivity. Qed.
Lemma jmp_ok : i_ok Asm.jmp JMP = true.
Proof. vm_compute. reflexivity. Qed.
Lemma hlt_ok : op_code Asm.hlt = HLT.
Proof. vm_compute. reflexivity. Qed.

End Codec.

(** C2.  Codec round trip: for each of the sixteen opcodes and all operands
    in range (register numbers 0..7, immediates and addresses 0..255), the
    decoders applied to the encoder's word give back the opcode
    ([op_code]), the register fields ([op_regA], [op_regB]) and the low byte
    ([op_data], [op_addr]). *)
Theorem codec_round_trip (ra rb imm : Z) :
  0 <= ra <= 7 -> 0 <= rb <= 7 -> 0 <= imm <= 255 ->
  decodes_rr (Asm.mov ra rb) MOV ra rb /\
  decodes_rr (Asm.add ra rb) ADD ra rb /\
  decodes_rr (Asm.sub ra rb) SUB ra rb /\
  decodes_rr (Asm.and ra rb) AND ra rb /\
  decodes_rr (Asm.or ra rb) OR ra rb /\
  decodes_r (Asm.sl ra) SL ra /\
  decodes_r (Asm.sr ra) SR ra /\
  decodes_r (Asm.sra ra) SRA ra /\
  decodes_ri (Asm.ldl ra imm) LDL ra imm /\
  decodes_ri (Asm.ldh ra imm) LDH ra imm /\
  decodes_rr (Asm.cmp ra rb) CMP ra rb /\
  decodes_i (Asm.je imm) JE imm /\
  decodes_i (Asm.jmp imm) JMP imm /\
  decodes_ri (Asm.ld ra imm) LD ra imm /\
  decodes_ri (Asm.st ra imm) ST ra imm /\
  op_code Asm.hlt = HLT.
Proof.
  intros Ha Hb Hi.
  repeat lazymatch goal with
         | |- _ /\ _ => split
         end.
  - exact (rr_ok_sound _ _ mov_ok ra rb Ha Hb).
  - exact (rr_ok_sound _ _ add_ok ra rb Ha Hb).
  - exact (rr_ok_sound _ _ sub_ok ra rb Ha Hb).
  - exact (rr_ok_sound _ _ and_ok ra rb Ha Hb).
  - exact (rr_ok_sound _ _ or_ok ra rb Ha Hb).
  - exact (r_ok_sound _ _ sl_ok ra Ha).
  - exact (r_ok_sound _ _ sr_ok ra Ha).
  - exact (r_ok_sound _ _ sra_ok ra Ha).
  - exact (ri_ok_sound _ _ ldl_ok ra imm Ha Hi).
  - exact (ri_ok_sound _ _ ldh_ok ra imm Ha Hi).
  - exact (rr_ok_sound _ _ cmp_ok ra rb Ha Hb).
  - exact (i_ok_sound _ _ je_ok imm Hi).
  - exact (i_ok_sound _ _ jmp_ok imm Hi).
  - exact (ri_ok_sound _ _ ld_ok ra imm Ha Hi).
  - exact (ri_ok_sound _ _ st_ok ra imm Ha Hi).
  - exact hlt_ok.
Qed.

Lemma codec_round_trip_witness :
  (0 <= 2 <= 7 /\ 0 <= 3 <= 7 /\ 0 <= 64 <= 255) /\
  decodes_rr (Asm.cmp 2 3) CMP 2 3 /\ decodes_ri (Asm.st 2 64) ST 2 64.
Proof.
  split; [lia|].
  destruct (codec_round_trip 2 3 64 ltac:(lia) ltac:(lia) ltac:(lia))
    as (_ & _ & _ & _ & _ & _ & _ & _ & _ & _ & Hcmp & _ & _ & _ & Hst & _).
  split; assumption.
Defined.

(** ** Array accesses *)

Section Arrays.

Lemma in_bounds_iff (a : list Z) (i : Z) :
  in_bounds a i = true <-> 0 <= i < Z.of_nat (length a).
Proof. unfold in_bounds. rewrite andb_true_iff, Z.leb_le, Z.ltb_lt. tauto. Qed.

Lemma aget_defined (a : list Z) (i : Z) :
  0 <= i < Z.of_nat (length a) -> exists v, aget a i = Some v.
Proof.
  intros Hi. unfold aget.
  rewrite (proj2 (in_bounds_iff a i) Hi).
  destruct (lookup_lt_is_Some_2 a (Z.to_nat i)) as [v Hv]; [lia|].
  exists v. exact Hv.
Qed.

Lemma aget_Some_range (a : list Z) (i v : Z) :
  aget a i = Some v -> 0 <= i < Z.of_nat (length a).
Proof.
  unfold aget. destruct (in_bounds a i) eqn:Hb; [|discriminate].
  intros _. apply in_bounds_iff. exact Hb.
Qed.

Lemma aget_None_range (a : list Z) (i : Z) :
  aget a i = None -> ~ (0 <= i < Z.of_nat (length a)).
Proof.
  intros Hn Hi. destruct (aget_defined a i Hi) as [v Hv]. congruence.
Qed.

Lemma aset_defined (a : list Z) (i v : Z) :
  0 <= i < Z.of_nat (length a) ->
  aset a i v = Some (<[Z.to_nat i := v]> a).
Proof.
  intros Hi. unfold aset. rewrite (proj2 (in_bounds_iff a i) Hi). reflexivity.
Qed.

Lemma aset_length (a a' : list Z) (i v : Z) :
  aset a i v = Some a' -> length a' = length a.
Proof.
  unfold aset. destruct (in_bounds a i); [|discriminate].
  intros [= <-]. apply length_insert.
Qed.

Lemma aget_aset_same (a a' : list Z) (i v : Z) :
  aset a i v = Some a' -> aget a' i = Some v.
Proof.
  unfold aset, aget. destruct (in_bounds a i) eqn:Hb; [|discriminate].
  intros [= <-]. apply in_bounds_iff in Hb.
  unfold in_bounds. rewrite length_insert.
  replace ((0 <=? i) && (i <? Z.of_nat (length a))) with true
    by (symmetry; apply andb_true_iff; rewrite Z.leb_le, Z.ltb_lt; lia).
  apply list_lookup_insert_eq. lia.
Qed.

Lemma aget_aset_other (a a' : list Z) (i j v : Z) :
  aset a i v = Some a' -> 0 <= j -> j <> i -> aget a' j = aget a j.
Proof.
  unfold aset, aget. destruct (in_bounds a i) eqn:Hb; [|discriminate].
  intros [= <-] Hj Hne. apply in_bounds_iff in Hb.
  unfold in_bounds. rewrite length_insert.
  destruct ((0 <=? j) && (j <? Z.of_nat (length a))); [|reflexivity].
  apply list_lookup_insert_ne. lia.
Qed.

End Arrays.

(** ** The [switch] *)

Section Execute.

Variables (ir : Z) (s : cpu).

Lemma regA_defined :
  well_formed s -> exists a, aget (reg s) (op_regA ir) = Some a.
Proof.
  intros (Hr & _ & _). apply aget_defined.
  pose proof (op_regA_range ir). lia.
Qed.

Lemma regB_defined :
  well_formed s -> exists b, aget (reg s) (op_regB ir) = Some b.
Proof.
  intros (Hr & _ & _). apply aget_defined.
  pose proof (op_regB_range ir). lia.
Qed.

Lemma ram_defined :
  well_formed s -> exists v, aget (ram s) (op_addr ir) = Some v.
Proof.
  intros (_ & _ & Hm). apply aget_defined.
  pose proof (op_addr_range ir). lia.
Qed.

Lemma write_regA_defined (v : Z) :
  well_formed s ->
  write_regA ir v s
  = Some (set_reg s (<[Z.to_nat (op_regA ir) := v]> (reg s))).
Proof.
  intros (Hr & _ & _). unfold write_regA.
  rewrite aset_defined; [reflexivity|].
  pose proof (op_regA_range ir). lia.
Qed.

Lemma ram_write_defined (v : Z) :
  well_formed s ->
  aset (ram s) (op_addr ir) v = Some (<[Z.to_nat (op_addr ir) := v]> (ram s)).
Proof.
  intros (_ & _ & Hm). apply aset_defined.
  pose proof (op_addr_range ir). lia.
Qed.

(** Every access of the [switch] is inside its array. *)
Lemma execute_defined :
  well_formed s -> exists s', execute ir s = Some s'.
Proof.
  intros Hwf.
  destruct (regA_defined Hwf) as [a Ha].
  destruct (regB_defined Hwf) as [b Hb].
  destruct (ram_defined Hwf) as [m Hm].
  unfold execute.
  repeat match goal with
         | |- context [if ?c then _ else _] => destruct c
         end;
    rewrite ?Ha, ?Hb, ?Hm; cbn [bind];
    rewrite ?write_regA_defined, ?ram_write_defined by exact Hwf;
    cbn [bind]; eauto.
Qed.

Lemma execute_well_formed (s' : cpu) :
  execute ir s = Some s' -> well_formed s -> well_formed s'.
Proof.
  intros H (Hr & Ho & Hm). unfold well_formed.
  by_opcode H; cbn;
    repeat match goal with
           | E : aset _ _ _ = Some _ |- _ => apply aset_length in E
           end;
    repeat split; congruence.
Qed.

Lemma execute_rom (s' : cpu) : execute ir s = Some s' -> rom s' = rom s.
Proof. intros H. by_opcode H; reflexivity. Qed.

Lemma execute_flag_eq (s' : cpu) :
  execute ir s = Some s' -> op_code ir <> CMP -> flag_eq s' = flag_eq s.
Proof.
  intros H Hne. by_opcode H; try reflexivity.
  all: exfalso; apply Hne; apply Z.eqb_eq; assumption.
Qed.

Lemma execute_pc (s' : cpu) :
  execute ir s = Some s' ->
  pc s' = if (op_code ir =? JMP) || (op_code ir =? JE) && (flag_eq s =? 1)
          then op_addr ir else pc s.
Proof.
  intros H. by_opcode H; cbn;
    repeat match goal with
           | E : (_ =? _) = true |- _ => apply Z.eqb_eq in E
           end;
    repeat match goal with
           | E : op_code ir = _ |- _ => rewrite E in *
           end;
    try discriminate; try reflexivity.
  all: repeat match goal with
           | E : (_ =? _) = _ |- _ => rewrite E
           end; reflexivity.
Qed.

End Execute.

(** ** One cycle *)

Section Cycle.

Variable s : cpu.
Hypothesis Hwf : well_formed s.

Lemma fetch_range (ir : Z) : fetch s = Some ir -> 0 <= pc s < 256.
Proof.
  intros H. apply aget_Some_range in H.
  destruct Hwf as (_ & Ho & _). lia.
Qed.

Lemma fetch_defined : 0 <= pc s < 256 -> exists ir, fetch s = Some ir.
Proof.
  intros H. apply aget_defined. destruct Hwf as (_ & Ho & _). lia.
Qed.

Lemma fetch_undefined : ~ (0 <= pc s < 256) -> fetch s = None.
Proof.
  intros H. destruct (fetch s) as [ir|] eqn:E; [|reflexivity].
  destruct H. exact (fetch_range _ E).
Qed.

Lemma advance_exact (ir : Z) :
  fetch s = Some ir -> to_short (pc s + 1) = pc s + 1.
Proof.
  intros H. apply fetch_range in H. apply to_short_id. unfold is_short. lia.
Qed.

Lemma trace_defined (ir : Z) : exists t, trace ir s = Some t.
Proof.
  destruct Hwf as (Hr & _ & _). unfold trace.
  destruct (aget_defined (reg s) 0) as [r0 ->]; [lia|].
  destruct (aget_defined (reg s) 1) as [r1 ->]; [lia|].
  destruct (aget_defined (reg s) 2) as [r2 ->]; [lia|].
  destruct (aget_defined (reg s) 3) as [r3 ->]; [lia|].
  cbn. eauto.
Qed.

Lemma trace_pc_ir (ir : Z) (t : trace_line) :
  trace ir s = Some t -> t_pc t = pc s /\ t_ir t = ir.
Proof.
  unfold trace, bind.
  repeat match goal with
         | |- context [match ?x with _ => _ end] => destruct x
         end; try discriminate.
  intros [= <-]. split; reflexivity.
Qed.

(** A cycle whose fetch is inside the instruction memory runs to its end:
    [pc] is advanced by one, then the [switch] is executed. *)
Lemma cycle_defined (ir : Z) :
  fetch s = Some ir ->
  exists t s',
    cycle s = Some (t, s', negb (op_code ir =? HLT)) /\
    t_pc t = pc s /\ t_ir t = ir /\
    execute ir (set_pc s (pc s + 1)) = Some s' /\
    well_formed s'.
Proof.
  intros Hf.
  destruct (trace_defined ir) as [t Ht].
  assert (Hwf1 : well_formed (set_pc s (pc s + 1))) by exact Hwf.
  destruct (execute_defined ir _ Hwf1) as [s' Hs'].
  exists t, s'. unfold cycle.
  rewrite Hf. cbn [bind]. rewrite Ht. cbn [bind].
  rewrite (advance_exact _ Hf), Hs'. cbn [bind].
  destruct (trace_pc_ir _ _ Ht) as [Hp Hi].
  refine (conj eq_refl (conj Hp (conj Hi (conj eq_refl _)))).
  exact (execute_well_formed _ _ _ Hs' Hwf1).
Qed.

Lemma cycle_undefined : ~ (0 <= pc s < 256) -> cycle s = None.
Proof.
  intros H. unfold cycle. rewrite (fetch_undefined H). reflexivity.
Qed.

Lemma cycle_inv (t : trace_line) (s' : cpu) (again : bool) :
  cycle s = Some (t, s', again) ->
  exists ir,
    fetch s = Some ir /\ t_pc t = pc s /\ t_ir t = ir /\
    execute ir (set_pc s (pc s + 1)) = Some s' /\
    again = negb (op_code ir =? HLT) /\ well_formed s'.
Proof.
  intros Hc. destruct (fetch s) as [ir|] eqn:Hf.
  - destruct (cycle_defined _ Hf) as (t0 & s0 & Hc0 & Hp & Hi & He & Hw).
    rewrite Hc0 in Hc. injection Hc as <- <- <-. eauto 10.
  - unfold cycle in Hc. rewrite Hf in Hc. discriminate.
Qed.

End Cycle.

(** ** The loop *)

Section Loop.

Lemma loop_more_fuel (n : nat) :
  forall s tr s' tr',
    loop n s tr = Halted s' tr' ->
    forall m, (n <= m)%nat -> loop m s tr = Halted s' tr'.
Proof.
  induction n as [|n IH]; intros s tr s' tr' H m Hm; [discriminate|].
  destruct m as [|m]; [lia|]. cbn in H |- *.
  destruct (cycle s) as [[[t s1] again]|]; [|discriminate].
  destruct again; [|exact H].
  apply (IH _ _ _ _ H). lia.
Qed.

(** The loop leaves through its condition only: by a cycle that fetched
    [HLT]; the last trace line is that of this cycle. *)
Lemma loop_halted (n : nat) :
  forall s tr s' tr',
    well_formed s ->
    loop n s tr = Halted s' tr' ->
    exists tr0 t,
      tr' = tr0 ++ [t] /\ op_code (t_ir t) = HLT /\
      aget (rom s') (t_pc t) = Some (t_ir t) /\
      pc s' = t_pc t + 1 /\ rom s' = rom s /\ well_formed s'.
Proof.
  induction n as [|n IH]; intros s tr s' tr' Hwf H; [discriminate|].
  cbn in H. destruct (cycle s) as [[[t s1] again]|] eqn:Hc; [|discriminate].
  destruct (cycle_inv _ Hwf _ _ _ Hc) as (ir & Hf & Hp & Hi & He & Ha & Hw1).
  pose proof (execute_rom _ _ _ He) as Hrom. cbn in Hrom.
  destruct again.
  - destruct (IH _ _ _ _ Hw1 H) as (tr0 & t' & E1 & E2 & E3 & E4 & Hr & E5).
    exists tr0, t'.
    refine (conj E1 (conj E2 (conj E3 (conj E4 (conj _ E5))))). congruence.
  - injection H as <- <-. exists tr, t.
    symmetry in Ha. apply negb_false_iff, Z.eqb_eq in Ha.
    pose proof (execute_pc _ _ _ He) as Hpc. rewrite Ha in Hpc. cbn in Hpc.
    refine (conj eq_refl (conj _ (conj _ (conj _ (conj Hrom Hw1))))).
    + congruence.
    + rewrite Hrom, Hp, Hi. exact Hf.
    + rewrite Hpc, Hp. reflexivity.
Qed.

(** From the state of [main], [pc] stays in [0, 256]; the cycle at
    [pc = 256] is the only one with an access outside an array. *)
Lemma cycle_pc_range (s : cpu) (t : trace_line) (s' : cpu) (again : bool) :
  well_formed s -> cycle s = Some (t, s', again) -> 0 <= pc s' <= 256.
Proof.
  intros Hwf Hc.
  destruct (cycle_inv _ Hwf _ _ _ Hc) as (ir & Hf & _ & _ & He & _ & _).
  pose proof (fetch_range _ Hwf _ Hf) as Hr.
  pose proof (op_addr_range ir) as Haddr.
  rewrite (execute_pc _ _ _ He). cbn [pc set_pc flag_eq].
  destruct (_ || _); lia.
Qed.

Lemma loop_in_bounds (n : nat) :
  forall s tr,
    well_formed s -> 0 <= pc s <= 256 ->
    match loop n s tr with
    | Halted s' _ | Running s' _ => well_formed s' /\ 0 <= pc s' <= 256
    | Undefined s' _ => well_formed s' /\ pc s' = 256
    end.
Proof.
  induction n as [|n IH]; intros s tr Hwf Hpc; cbn; [auto|].
  destruct (cycle s) as [[[t s1] again]|] eqn:Hc.
  - pose proof (cycle_pc_range _ _ _ _ Hwf Hc) as Hpc1.
    destruct (cycle_inv _ Hwf _ _ _ Hc) as (_ & _ & _ & _ & _ & _ & Hw1).
    destruct again; [apply IH; assumption | auto].
  - split; [exact Hwf|].
    destruct (Z.eq_dec (pc s) 256) as [|Hne]; [assumption|].
    destruct (fetch_defined _ Hwf) as [ir Hf]; [lia|].
    destruct (cycle_defined _ Hwf _ Hf) as (? & ? & Hc' & _). congruence.
Qed.

End Loop.

(** ** Small programs *)

Example register_move :
  halts_with [Asm.ldl REG1 7; Asm.mov REG0 REG1; Asm.hlt] 3
    (fun s => aget (reg s) 0 = Some 7 /\ aget (reg s) 1 = Some 7).
Proof. vm_compute. split; reflexivity. Qed.

Example arithmetic_wraps :
  halts_with [Asm.ldl REG0 0xFF; Asm.ldh REG0 0xFF; Asm.ldl REG1 1;
              Asm.ldh REG1 0; Asm.add REG0 REG1; Asm.hlt] 6
    (fun s => aget (reg s) 0 = Some 0).
Proof. vm_compute. reflexivity. Qed.

Example branch_taken :
  halts_with [Asm.ldl REG0 1; Asm.ldl REG1 1; Asm.cmp REG0 REG1; Asm.je 6;
              Asm.ldl REG2 9; Asm.hlt; Asm.ldl REG2 3; Asm.hlt] 6
    (fun s => aget (reg s) 2 = Some 3 /\ flag_eq s = 1 /\ pc s = 8).
Proof. vm_compute. repeat split; reflexivity. Qed.

Example branch_not_taken :
  halts_with [Asm.ldl REG0 1; Asm.ldl REG1 2; Asm.cmp REG0 REG1; Asm.je 6;
              Asm.ldl REG2 9; Asm.hlt; Asm.ldl REG2 3; Asm.hlt] 6
    (fun s => aget (reg s) 2 = Some 9 /\ flag_eq s = 0 /\ pc s = 6).
Proof. vm_compute. repeat split; reflexivity. Qed.

Example memory_round_trip :
  halts_with [Asm.ldl REG0 42; Asm.st REG0 100; Asm.ld REG1 100; Asm.hlt] 4
    (fun s => aget (ram s) 100 = Some 42 /\ aget (reg s) 1 = Some 42).
Proof. vm_compute. split; reflexivity. Qed.

(** ** The bundled program *)

Lemma bundled_run_68 :
  match loop 68 bundled [] with
  | Halted s tr =>
      last tr = Some (TraceLine 14 Asm.hlt 55 1 10 10) /\
      aget (rom s) 14 = Some Asm.hlt /\
      aget (ram s) 64 = Some 55 /\
      aget (reg s) 0 = Some 55 /\
      aget (reg s) 2 = Some 10 /\
      flag_eq s = 1 /\
      pc s = 15
  | _ => False
  end.
Proof. vm_compute. repeat split; reflexivity. Qed.

Lemma bundled_run_67 :
  match loop 67 bundled [] with
  | Running s _ => pc s = 14
  | _ => False
  end.
Proof. vm_compute. reflexivity. Qed.

Lemma bundled_halts :
  exists s tr, loop 68 bundled [] = Halted s tr /\
      last tr = Some (TraceLine 14 Asm.hlt 55 1 10 10) /\
      aget (rom s) 14 = Some Asm.hlt /\
      aget (ram s) 64 = Some 55 /\
      aget (reg s) 0 = Some 55 /\
      aget (reg s) 2 = Some 10 /\
      flag_eq s = 1 /\
      pc s = 15.
Proof.
  pose proof bundled_run_68 as H.
  destruct (loop 68 bundled []) as [s tr| |]; try contradiction.
  exists s, tr. split; [reflexivity | exact H].
Qed.

Lemma bundled_not_before :
  exists s tr, loop 67 bundled [] = Running s tr.
Proof.
  pose proof bundled_run_67 as H.
  destruct (loop 67 bundled []) as [|s tr|]; try contradiction. eauto.
Qed.

Lemma main_halted (fuel : nat) (s : cpu) (tr : list trace_line) (v : Z) :
  loop fuel bundled [] = Halted s tr -> aget (ram s) 64 = Some v ->
  main fuel = Some (tr, v).
Proof.
  intros Hl Hv. unfold main. change (boot (assembler (zeros 256))) with bundled.
  rewrite Hl. cbn [bind]. rewrite Hv. reflexivity.
Qed.

(** C1.  The loop of [main], started on the instruction memory written by
    [assembler], stops: its 68th cycle fetches the [HLT] of address 14 (so
    any bound of at least 68 cycles gives the same halted state, and 67 are
    not enough).  In that state [ram[64] = 55], [reg[0] = 55], [reg[2] = 10],
    [flag_eq = 1] and [pc = 15]; [main] prints 55. *)
Theorem bundled_program_sums_1_to_10 :
  exists s tr,
    (forall fuel, (68 <= fuel)%nat -> loop fuel bundled [] = Halted s tr) /\
    (exists s67 tr67, loop 67 bundled [] = Running s67 tr67) /\
    last tr = Some (TraceLine 14 Asm.hlt 55 1 10 10) /\
    aget (rom s) 14 = Some Asm.hlt /\
    aget (ram s) 64 = Some 55 /\
    aget (reg s) 0 = Some 55 /\
    aget (reg s) 2 = Some 10 /\
    flag_eq s = 1 /\
    pc s = 15 /\
    (forall fuel, (68 <= fuel)%nat -> main fuel = Some (tr, 55)).
Proof.
  destruct bundled_halts
    as (s & tr & E68 & Hlast & Hrom & Hram & Hr0 & Hr2 & Hflag & Hpc).
  assert (Hrun : forall fuel, (68 <= fuel)%nat ->
                 loop fuel bundled [] = Halted s tr)
    by (intros fuel Hfuel; exact (loop_more_fuel _ _ _ _ _ E68 _ Hfuel)).
  exists s, tr.
  refine (conj Hrun (conj bundled_not_before (conj Hlast (conj Hrom (conj Hram
           (conj Hr0 (conj Hr2 (conj Hflag (conj Hpc _))))))))).
  intros fuel Hfuel. exact (main_halted _ _ _ _ (Hrun fuel Hfuel) Hram).
Qed.

Lemma bundled_program_sums_1_to_10_witness :
  exists s tr, loop 68 bundled [] = Halted s tr /\ main 100 = Some (tr, 55).
Proof.
  destruct bundled_program_sums_1_to_10
    as (s & tr & Hrun & _ & _ & _ & _ & _ & _ & _ & _ & Hmain).
  exists s, tr. split.
  - exact (Hrun 68%nat ltac:(lia)).
  - exact (Hmain 100%nat ltac:(lia)).
Defined.

(** ** The right shifts *)

Section Shifts.

(** On the 16 bits of the register, [x >> 1] of a signed [x] keeps bit 15:
    it is the same value as [(x & 0x8000) | (x >> 1)]. *)
Lemma sr_bits (a : Z) :
  is_short a -> bits16 (to_short (Z.shiftr a 1)) = shr_keep_sign (bits16 a).
Proof.
  intros Ha. apply Z.eqb_eq.
  revert a Ha. apply all_shorts_spec. vm_compute. reflexivity.
Qed.

Lemma sra_bits (a : Z) :
  is_short a ->
  bits16 (to_short (Z.lor (Z.land a 0x8000) (Z.shiftr a 1)))
  = shr_keep_sign (bits16 a).
Proof.
  intros Ha. apply Z.eqb_eq.
  revert a Ha. apply all_shorts_spec. vm_compute. reflexivity.
Qed.

Lemma shr_zero_fill_nonneg (a : Z) :
  is_short a -> 0 <= a -> shr_keep_sign (bits16 a) = shr_zero_fill (bits16 a).
Proof.
  intros Ha Hpos.
  assert (H : (negb (0 <=? a)
               || (shr_keep_sign (bits16 a) =? shr_zero_fill (bits16 a)))
              = true)
    by (revert a Ha Hpos; intros a Ha _; revert a Ha;
        apply all_shorts_spec; vm_compute; reflexivity).
  apply orb_true_iff in H as [H|H].
  - apply negb_true_iff, Z.leb_gt in H. lia.
  - apply Z.eqb_eq. exact H.
Qed.

Lemma shr_zero_fill_neg (a : Z) :
  is_short a -> a < 0 ->
  shr_keep_sign (bits16 a) = shr_zero_fill (bits16 a) + 32768.
Proof.
  intros Ha Hneg.
  assert (H : ((0 <=? a)
               || (shr_keep_sign (bits16 a)
                   =? shr_zero_fill (bits16 a) + 32768))
              = true)
    by (revert a Ha Hneg; intros a Ha _; revert a Ha;
        apply all_shorts_spec; vm_compute; reflexivity).
  apply orb_true_iff in H as [H|H].
  - apply Z.leb_le in H. lia.
  - apply Z.eqb_eq. exact H.
Qed.

Variables (ir : Z) (s : cpu) (a : Z).
Hypothesis Hwf : well_formed s.
Hypothesis Ha : aget (reg s) (op_regA ir) = Some a.

Lemma execute_sr :
  op_code ir = SR ->
  execute ir s
  = Some (set_reg s (<[Z.to_nat (op_regA ir) := to_short (Z.shiftr a 1)]>
                       (reg s))).
Proof.
  intros Hop. unfold execute. rewrite Hop. known_opcode.
  rewrite Ha. cbn [bind]. apply write_regA_defined. exact Hwf.
Qed.

Lemma execute_sra :
  op_code ir = SRA ->
  execute ir s
  = Some (set_reg s
            (<[Z.to_nat (op_regA ir)
               := to_short (Z.lor (Z.land a 0x8000) (Z.shiftr a 1))]>
               (reg s))).
Proof.
  intros Hop. unfold execute. rewrite Hop. known_opcode.
  rewrite Ha. cbn [bind]. apply write_regA_defined. exact Hwf.
Qed.

End Shifts.

Lemma run_sr_scenario :
  match loop 4 (boot (rom_of (shift_program Asm.sr))) [] with
  | Halted s _ => aget (reg s) 0 = Some (-16384)
  | _ => False
  end.
Proof. vm_compute. reflexivity. Qed.

Lemma run_sra_scenario :
  match loop 4 (boot (rom_of (shift_program Asm.sra))) [] with
  | Halted s _ => aget (reg s) 0 = Some (-16384)
  | _ => False
  end.
Proof. vm_compute. reflexivity. Qed.

(** C3.  What [SR] does on this code: [reg[A] >> 1] is a shift of a signed
    [short], so bit 15 is kept.  For a register whose bit 15 is set the 16
    bits stored are the zero-filled shift plus 0x8000, and the program
    [LDH REG0,0x80; LDL REG0,0x00; SR REG0; HLT] halts with the bits 0xC000
    in [reg[0]], not 0x4000.  (For a register whose bit 15 is clear the shift
    is the zero-filled one.) *)
Theorem sr_shifts_signed :
  (forall ir s a,
      well_formed s -> op_code ir = SR ->
      aget (reg s) (op_regA ir) = Some a -> is_short a ->
      exists v,
        execute ir s
        = Some (set_reg s (<[Z.to_nat (op_regA ir) := v]> (reg s))) /\
        (a < 0 -> bits16 v = Z.shiftr (bits16 a) 1 + 0x8000) /\
        (0 <= a -> bits16 v = Z.shiftr (bits16 a) 1)) /\
  (exists s tr v,
      loop 4 (boot (rom_of (shift_program Asm.sr))) [] = Halted s tr /\
      aget (reg s) 0 = Some v /\ bits16 v = 0xC000 /\ bits16 v <> 0x4000).
Proof.
  split.
  - intros ir s a Hwf Hop Ha Hs.
    exists (to_short (Z.shiftr a 1)). split; [|split].
    + exact (execute_sr ir s a Hwf Ha Hop).
    + intros Hneg. rewrite (sr_bits a Hs).
      exact (shr_zero_fill_neg a Hs Hneg).
    + intros Hpos. rewrite (sr_bits a Hs).
      exact (shr_zero_fill_nonneg a Hs Hpos).
  - pose proof run_sr_scenario as H.
    destruct (loop 4 (boot (rom_of (shift_program Asm.sr))) [])
      as [s tr| |]; try contradiction.
    exists s, tr, (-16384). repeat split; [exact H | discriminate].
Qed.

Lemma sr_shifts_signed_witness :
  exists v,
    execute (Asm.sr REG0) reg0_is_0x8000
    = Some (set_reg reg0_is_0x8000 (<[0%nat := v]> (reg reg0_is_0x8000))) /\
    bits16 v = 0xC000.
Proof.
  destruct (proj1 sr_shifts_signed (Asm.sr REG0) reg0_is_0x8000 (-32768))
    as (v & He & Hneg & _).
  - repeat split; reflexivity.
  - reflexivity.
  - reflexivity.
  - unfold is_short. lia.
  - exists v. split; [exact He|]. rewrite Hneg by lia. reflexivity.
Defined.

(** C4.  [SRA] stores [(reg[A] & 0x8000) | (reg[A] >> 1)]: on the 16 bits of
    the register, the bit 15 it had before the shift or-ed into the
    zero-filled shift by one, whatever the register holds.  The program
    [LDH REG0,0x80; LDL REG0,0x00; SRA REG0; HLT] halts with the bits 0xC000
    in [reg[0]]. *)
Theorem sra_keeps_sign_bit :
  (forall ir s a,
      well_formed s -> op_code ir = SRA ->
      aget (reg s) (op_regA ir) = Some a -> is_short a ->
      exists v,
        execute ir s
        = Some (set_reg s (<[Z.to_nat (op_regA ir) := v]> (reg s))) /\
        is_short v /\
        bits16 v
        = Z.lor (Z.land (bits16 a) 0x8000) (Z.shiftr (bits16 a) 1)) /\
  (exists s tr v,
      loop 4 (boot (rom_of (shift_program Asm.sra))) [] = Halted s tr /\
      aget (reg s) 0 = Some v /\ bits16 v = 0xC000).
Proof.
  split.
  - intros ir s a Hwf Hop Ha Hs.
    exists (to_short (Z.lor (Z.land a 0x8000) (Z.shiftr a 1))).
    split; [|split].
    + exact (execute_sra ir s a Hwf Ha Hop).
    + apply to_short_is_short.
    + exact (sra_bits a Hs).
  - pose proof run_sra_scenario as H.
    destruct (loop 4 (boot (rom_of (shift_program Asm.sra))) [])
      as [s tr| |]; try contradiction.
    exists s, tr, (-16384). repeat split. exact H.
Qed.

Lemma sra_keeps_sign_bit_witness :
  exists v,
    execute (Asm.sra REG0) reg0_is_0x8000
    = Some (set_reg reg0_is_0x8000 (<[0%nat := v]> (reg reg0_is_0x8000))) /\
    bits16 v = 0xC000.
Proof.
  destruct (proj1 sra_keeps_sign_bit (Asm.sra REG0) reg0_is_0x8000 (-32768))
    as (v & He & _ & Hb).
  - repeat split; reflexivity.
  - reflexivity.
  - reflexivity.
  - unfold is_short. lia.
  - exists v. split; [exact He|]. rewrite Hb. reflexivity.
Defined.

(** ** The equality flag *)

Lemma execute_cmp (ir : Z) (s : cpu) (a b : Z) :
  aget (reg s) (op_regA ir) = Some a ->
  aget (reg s) (op_regB ir) = Some b ->
  op_code ir = CMP ->
  execute ir s = Some (set_flag_eq s (if a =? b then 1 else 0)).
Proof.
  intros Ha Hb Hop. unfold execute. rewrite Hop. known_opcode.
  rewrite Ha, Hb. reflexivity.
Qed.

(** C5.  In a cycle whose instruction is not [CMP], [flag_eq] after the
    cycle is [flag_eq] before it; a [CMP] cycle sets it to 1 when
    [reg[A] == reg[B]] and to 0 otherwise. *)
Theorem flag_eq_written_only_by_cmp (s : cpu) (ir : Z) :
  well_formed s -> fetch s = Some ir ->
  exists t s',
    cycle s = Some (t, s', negb (op_code ir =? HLT)) /\
    (op_code ir <> CMP -> flag_eq s' = flag_eq s) /\
    (op_code ir = CMP ->
     exists a b,
       aget (reg s) (op_regA ir) = Some a /\
       aget (reg s) (op_regB ir) = Some b /\
       flag_eq s' = if a =? b then 1 else 0).
Proof.
  intros Hwf Hf.
  destruct (cycle_defined s Hwf ir Hf) as (t & s' & Hc & _ & _ & He & _).
  exists t, s'. split; [exact Hc|]. split.
  - intros Hne. exact (execute_flag_eq _ _ _ He Hne).
  - intros Hop.
    destruct (regA_defined ir s Hwf) as [a Ha].
    destruct (regB_defined ir s Hwf) as [b Hb].
    exists a, b. split; [exact Ha|]. split; [exact Hb|].
    rewrite (execute_cmp ir (set_pc s (pc s + 1)) a b Ha Hb Hop) in He.
    injection He as <-. reflexivity.
Qed.

Lemma boot_well_formed (image : list Z) :
  length image = 256%nat -> well_formed (boot image).
Proof. intros H. repeat split. exact H. Qed.

Lemma bundled_well_formed : well_formed bundled.
Proof. apply boot_well_formed. reflexivity. Qed.

Lemma flag_eq_written_only_by_cmp_witness :
  exists t s',
    cycle bundled = Some (t, s', true) /\ flag_eq s' = flag_eq bundled.
Proof.
  destruct (flag_eq_written_only_by_cmp bundled (Asm.ldh REG0 0))
    as (t & s' & Hc & Hne & _).
  - exact bundled_well_formed.
  - reflexivity.
  - exists t, s'. split; [exact Hc|]. apply Hne. discriminate.
Defined.

(** ** The program counter *)

(** C6.  In every cycle [pc] is incremented by exactly one before the
    [switch] is executed, whatever the opcode ([HLT] included); [JMP], and
    [JE] when [flag_eq == 1], then overwrite it with the address field, and
    nothing else writes it.  So when the loop stops, on the [HLT] fetched
    from address [p] (the last line of the trace), [pc] is [p + 1]. *)
Theorem pc_incremented_before_execute :
  (forall s ir,
      well_formed s -> fetch s = Some ir ->
      exists t s',
        cycle s = Some (t, s', negb (op_code ir =? HLT)) /\
        execute ir (set_pc s (pc s + 1)) = Some s' /\
        pc s' = if (op_code ir =? JMP)
                   || (op_code ir =? JE) && (flag_eq s =? 1)
                then op_addr ir else pc s + 1) /\
  (forall fuel s tr s' tr',
      well_formed s -> loop fuel s tr = Halted s' tr' ->
      exists tr0 t,
        tr' = tr0 ++ [t] /\ op_code (t_ir t) = HLT /\
        aget (rom s) (t_pc t) = Some (t_ir t) /\
        pc s' = t_pc t + 1).
Proof.
  split.
  - intros s ir Hwf Hf.
    destruct (cycle_defined s Hwf ir Hf) as (t & s' & Hc & _ & _ & He & _).
    exists t, s'. split; [exact Hc|]. split; [exact He|].
    exact (execute_pc _ _ _ He).
  - intros fuel s tr s' tr' Hwf Hl.
    destruct (loop_halted fuel s tr s' tr' Hwf Hl)
      as (tr0 & t & Htr & Hop & Hrom & Hpc & Hr & _).
    exists tr0, t. rewrite <- Hr. auto.
Qed.

Lemma pc_incremented_before_execute_witness :
  (exists t s', cycle bundled = Some (t, s', true) /\ pc s' = 1) /\
  (exists s' tr',
      loop 68 bundled [] = Halted s' tr' /\
      exists tr0 t, tr' = tr0 ++ [t] /\ t_pc t = 14 /\ pc s' = 15).
Proof.
  destruct pc_incremented_before_execute as [Hcycle Hloop]. split.
  - destruct (Hcycle bundled (Asm.ldh REG0 0) bundled_well_formed eq_refl)
      as (t & s' & Hc & _ & Hpc).
    exists t, s'. split; [exact Hc | exact Hpc].
  - destruct bundled_halts as (s' & tr' & Hl & _ & _ & _ & _ & _ & _ & Hpc).
    exists s', tr'. split; [exact Hl|].
    destruct (Hloop 68%nat bundled [] s' tr' bundled_well_formed Hl)
      as (tr0 & t & Htr & _ & _ & Hpc').
    exists tr0, t. split; [exact Htr|]. split; [lia | exact Hpc].
Defined.

(** ** Operands out of range *)

Lemma land_255_trunc8 (z : Z) : Z.land z 255 = trunc8 z.
Proof. exact (Z.land_ones z 8 ltac:(lia)). Qed.

Lemma trunc8_range (z : Z) : 0 <= trunc8 z <= 255.
Proof. rewrite <- land_255_trunc8. apply land_byte_range. Qed.

Section Masked.

Variables (ra ival : Z).

Lemma ldl_masked : Asm.ldl ra ival = Asm.ldl ra (trunc8 ival).
Proof.
  unfold Asm.ldl. rewrite <- land_255_trunc8, land_byte_idem. reflexivity.
Qed.

Lemma ldh_masked : Asm.ldh ra ival = Asm.ldh ra (trunc8 ival).
Proof.
  unfold Asm.ldh. rewrite <- land_255_trunc8, land_byte_idem. reflexivity.
Qed.

Lemma ld_masked : Asm.ld ra ival = Asm.ld ra (trunc8 ival).
Proof.
  unfold Asm.ld. rewrite <- land_255_trunc8, land_byte_idem. reflexivity.
Qed.

Lemma st_masked : Asm.st ra ival = Asm.st ra (trunc8 ival).
Proof.
  unfold Asm.st. rewrite <- land_255_trunc8, land_byte_idem. reflexivity.
Qed.

Lemma je_masked : Asm.je ival = Asm.je (trunc8 ival).
Proof.
  unfold Asm.je. rewrite <- land_255_trunc8, land_byte_idem. reflexivity.
Qed.

Lemma jmp_masked : Asm.jmp ival = Asm.jmp (trunc8 ival).
Proof.
  unfold Asm.jmp. rewrite <- land_255_trunc8, land_byte_idem. reflexivity.
Qed.

End Masked.

(** C7, as the code has it.  The encoders mask the immediate or address
    operand with [0x00ff] and nothing else: for a register number in 0..7 and
    any immediate or address, in range or not, the word decodes to the
    opcode, the register number and the operand truncated to 8 bits.  A
    register operand is shifted into place unmasked. *)
Theorem encoders_mask_immediates (ra ival : Z) :
  0 <= ra <= 7 ->
  decodes_ri (Asm.ldl ra ival) LDL ra (trunc8 ival) /\
  decodes_ri (Asm.ldh ra ival) LDH ra (trunc8 ival) /\
  decodes_i (Asm.je ival) JE (trunc8 ival) /\
  decodes_i (Asm.jmp ival) JMP (trunc8 ival) /\
  decodes_ri (Asm.ld ra ival) LD ra (trunc8 ival) /\
  decodes_ri (Asm.st ra ival) ST ra (trunc8 ival).
Proof.
  intros Ha. pose proof (trunc8_range ival) as Hi.
  rewrite ldl_masked, ldh_masked, je_masked, jmp_masked, ld_masked, st_masked.
  split; [exact (ri_ok_sound _ _ ldl_ok ra _ Ha Hi)|].
  split; [exact (ri_ok_sound _ _ ldh_ok ra _ Ha Hi)|].
  split; [exact (i_ok_sound _ _ je_ok _ Hi)|].
  split; [exact (i_ok_sound _ _ jmp_ok _ Hi)|].
  split; [exact (ri_ok_sound _ _ ld_ok ra _ Ha Hi)|].
  exact (ri_ok_sound _ _ st_ok ra _ Ha Hi).
Qed.

Lemma encoders_mask_immediates_witness :
  0 <= 3 <= 7 /\
  decodes_ri (Asm.ldl 3 (-1)) LDL 3 255 /\ decodes_i (Asm.jmp 264) JMP 8.
Proof.
  split; [lia|].
  destruct (encoders_mask_immediates 3 (-1) ltac:(lia)) as (Hldl & _).
  destruct (encoders_mask_immediates 3 264 ltac:(lia))
    as (_ & _ & _ & Hjmp & _).
  split; [exact Hldl | exact Hjmp].
Defined.

(** C7, as stated, fails on register operands: [mov(0, 8)] decodes with
    register A = 1, and [sr(8)] decodes as an [SRA]. *)
Lemma register_operand_not_truncated :
  ~ decodes_rr (Asm.mov 0 8) MOV (trunc3 0) (trunc3 8) /\
  ~ decodes_r (Asm.sr 8) SR (trunc3 8).
Proof.
  split.
  - intros (_ & H & _). vm_compute in H. discriminate H.
  - intros (H & _). vm_compute in H. discriminate H.
Qed.

(** ** Words that are no instruction *)

Lemma stray_word_op_code (ir : Z) :
  is_short ir -> 16 <= opcode_field ir <= 31 -> -16 <= op_code ir <= -1.
Proof.
  intros Hs Hf.
  assert (H : (negb (16 <=? opcode_field ir)
               || (-16 <=? op_code ir) && (op_code ir <=? -1)) = true)
    by (revert ir Hs Hf; intros ir Hs _; revert ir Hs;
        apply all_shorts_spec; vm_compute; reflexivity).
  apply orb_true_iff in H as [H|H].
  - apply negb_true_iff, Z.leb_gt in H. lia.
  - apply andb_true_iff in H as [H1 H2].
    apply Z.leb_le in H1, H2. lia.
Qed.

(** The [default] branch. *)
Lemma execute_default (ir : Z) (s : cpu) :
  ~ (0 <= op_code ir <= 14) -> execute ir s = Some s.
Proof.
  intros Hop. unfold execute.
  repeat match goal with
         | |- context [op_code ir =? ?k] =>
             destruct (Z.eqb_spec (op_code ir) k) as [E|_];
             [exfalso; apply Hop; rewrite E; vm_compute; split; discriminate|]
         end.
  reflexivity.
Qed.

(** C9, as the code has it.  A word whose opcode field is in 16..31 takes
    the [default] branch of the [switch]: the cycle changes nothing but
    [pc], which has advanced by one, and the loop goes on. *)
Theorem stray_word_is_nop (s : cpu) (ir : Z) :
  well_formed s -> fetch s = Some ir -> is_short ir ->
  16 <= opcode_field ir <= 31 ->
  exists t,
    cycle s = Some (t, set_pc s (pc s + 1), true) /\
    t_pc t = pc s /\ t_ir t = ir.
Proof.
  intros Hwf Hf Hs Hfield.
  pose proof (stray_word_op_code ir Hs Hfield) as Hop.
  destruct (cycle_defined s Hwf ir Hf) as (t & s' & Hc & Hp & Hi & He & _).
  rewrite execute_default in He by lia. injection He as <-.
  exists t. split; [|split; assumption].
  rewrite Hc. do 2 f_equal.
  apply negb_true_iff, Z.eqb_neq. unfold HLT. lia.
Qed.

Lemma stray_word_is_nop_witness :
  exists t,
    cycle (boot (rom_of stray_word_program))
    = Some (t, set_pc (boot (rom_of stray_word_program)) 1, true) /\
    t_ir t = -32768.
Proof.
  destruct (stray_word_is_nop (boot (rom_of stray_word_program)) (-32768))
    as (t & Hc & _ & Hi).
  - apply boot_well_formed. reflexivity.
  - reflexivity.
  - unfold is_short. lia.
  - vm_compute. split; discriminate.
  - exists t. split; [exact Hc | exact Hi].
Defined.

(** C9, as stated, fails: the word 0x8000 has opcode field 16; its cycle
    ends like any other, with the state unchanged but for [pc], and the loop
    goes on to the [HLT] that follows. *)
Lemma stray_word_not_fatal :
  opcode_field (to_short 0x8000) = 16 /\
  cycle (boot (rom_of stray_word_program))
  = Some (TraceLine 0 (to_short 0x8000) 0 0 0 0,
          set_pc (boot (rom_of stray_word_program)) 1, true) /\
  match loop 2 (boot (rom_of stray_word_program)) [] with
  | Halted s tr => s = set_pc (boot (rom_of stray_word_program)) 2
  | _ => False
  end.
Proof. vm_compute. repeat split; reflexivity. Qed.

(** ** Bounds of the accesses *)

(** C10.  For every word, [op_regA] and [op_regB] give a number in 0..7 and
    [op_addr] one in 0..255 (each decoder masks its field); so in any state
    whose arrays have their declared sizes the register and RAM cells named
    by the word exist, and the [switch] runs to its end without an access
    outside [reg] or [ram]. *)
Theorem decoded_fields_in_bounds (ir : Z) :
  (0 <= op_regA ir <= 7 /\ 0 <= op_regB ir <= 7 /\ 0 <= op_addr ir <= 255) /\
  (forall s,
      well_formed s ->
      (exists a, aget (reg s) (op_regA ir) = Some a) /\
      (exists b, aget (reg s) (op_regB ir) = Some b) /\
      (exists m, aget (ram s) (op_addr ir) = Some m) /\
      (exists s', execute ir s = Some s' /\ well_formed s')).
Proof.
  split.
  - auto using op_regA_range, op_regB_range, op_addr_range.
  - intros s Hwf.
    split; [exact (regA_defined ir s Hwf)|].
    split; [exact (regB_defined ir s Hwf)|].
    split; [exact (ram_defined ir s Hwf)|].
    destruct (execute_defined ir s Hwf) as [s' He].
    exists s'. split; [exact He|].
    exact (execute_well_formed ir s s' He Hwf).
Qed.

Lemma decoded_fields_in_bounds_witness :
  exists s', execute (-1) bundled = Some s' /\ well_formed s'.
Proof.
  destruct (decoded_fields_in_bounds (-1)) as [_ H].
  destruct (H bundled bundled_well_formed) as (_ & _ & _ & Hex).
  exact Hex.
Defined.

(** The lines printed by the cycles that ran to their end: each was fetched
    inside [rom]. *)
Lemma loop_up_to_first_stray_fetch (n : nat) :
  forall s tr,
    well_formed s -> 0 <= pc s <= 256 ->
    Forall (fun l => 0 <= t_pc l <= 255) tr ->
    match loop n s tr with
    | Halted s' tr' | Running s' tr' =>
        well_formed s' /\ 0 <= pc s' <= 256 /\
        Forall (fun l => 0 <= t_pc l <= 255) tr'
    | Undefined s' tr' =>
        well_formed s' /\ pc s' = 256 /\
        Forall (fun l => 0 <= t_pc l <= 255) tr'
    end.
Proof.
  induction n as [|n IH]; intros s tr Hwf Hpc Htr; cbn; [auto|].
  destruct (cycle s) as [[[t s1] again]|] eqn:Hc.
  - pose proof (cycle_pc_range _ _ _ _ Hwf Hc) as Hpc1.
    destruct (cycle_inv _ Hwf _ _ _ Hc) as (ir & Hf & Hp & _ & _ & _ & Hw1).
    pose proof (fetch_range _ Hwf _ Hf) as Hin.
    assert (Htr1 : Forall (fun l => 0 <= t_pc l <= 255) (tr ++ [t])).
    { apply Forall_app. split; [exact Htr|].
      constructor; [lia | constructor]. }
    destruct again; [apply IH; assumption | auto].
  - split; [exact Hwf|]. split; [|exact Htr].
    destruct (Z.eq_dec (pc s) 256) as [|Hne]; [assumption|].
    destruct (fetch_defined _ Hwf) as [ir Hf]; [lia|].
    destruct (cycle_defined _ Hwf _ Hf) as (? & ? & Hc' & _). congruence.
Qed.

(** C8, as the code has it.  Whatever word is executed, the [switch] reads
    and writes [reg] and [ram] inside their bounds.  A cycle that starts
    with [pc] in 0..255 fetches inside [rom], makes all its accesses inside
    the arrays and leaves [pc] in 0..256.  Nothing tests [pc]: this says
    nothing of a cycle that starts with [pc] outside 0..255.  For a run
    started by [main] on any instruction memory it gives the part of the run
    before the first fetch outside [rom]: as long as no cycle has fetched
    outside [rom], every line printed has its [pc] in 0..255 and [pc] is in
    0..256; and when the run comes to its first access outside an array,
    that access is the fetch [rom[256]].  ([Undefined] marks that first
    access; the source does not stop there, and nothing is stated of what
    follows it.) *)
Theorem accesses_in_bounds_while_pc_in_rom :
  (forall ir s,
      well_formed s ->
      exists s', execute ir s = Some s' /\ well_formed s') /\
  (forall s,
      well_formed s -> 0 <= pc s <= 255 ->
      exists t s' again,
        cycle s = Some (t, s', again) /\
        well_formed s' /\ 0 <= pc s' <= 256) /\
  (forall image fuel,
      length image = 256%nat ->
      match loop fuel (boot image) [] with
      | Halted s tr | Running s tr =>
          well_formed s /\ 0 <= pc s <= 256 /\
          Forall (fun l => 0 <= t_pc l <= 255) tr
      | Undefined s tr =>
          well_formed s /\ pc s = 256 /\
          Forall (fun l => 0 <= t_pc l <= 255) tr
      end).
Proof.
  split; [|split].
  - intros ir s Hwf.
    destruct (execute_defined ir s Hwf) as [s' He].
    exists s'. split; [exact He|].
    exact (execute_well_formed ir s s' He Hwf).
  - intros s Hwf Hpc.
    destruct (fetch_defined s Hwf) as [ir Hf]; [lia|].
    destruct (cycle_defined s Hwf ir Hf) as (t & s' & Hc & _ & _ & _ & Hw).
    exists t, s', (negb (op_code ir =? HLT)).
    split; [exact Hc|]. split; [exact Hw|].
    exact (cycle_pc_range _ _ _ _ Hwf Hc).
  - intros image fuel Hlen. apply loop_up_to_first_stray_fetch.
    + exact (boot_well_formed image Hlen).
    + cbn. lia.
    + constructor.
Qed.

Lemma accesses_in_bounds_while_pc_in_rom_witness :
  (exists s', execute (to_short 0xFFFF) bundled = Some s') /\
  (exists t s' again,
      cycle bundled = Some (t, s', again) /\ 0 <= pc s' <= 256) /\
  match loop 300 (boot (zeros 256)) [] with
  | Halted s tr | Running s tr =>
      0 <= pc s <= 256 /\ Forall (fun l => 0 <= t_pc l <= 255) tr
  | Undefined s tr =>
      pc s = 256 /\ Forall (fun l => 0 <= t_pc l <= 255) tr
  end.
Proof.
  destruct accesses_in_bounds_while_pc_in_rom as (Hexec & Hcycle & Hloop).
  split; [|split].
  - destruct (Hexec (to_short 0xFFFF) bundled bundled_well_formed)
      as (s' & He & _).
    exists s'. exact He.
  - destruct (Hcycle bundled bundled_well_formed) as (t & s' & b & Hc & _ & Hp).
    + cbn. lia.
    + exists t, s', b. split; [exact Hc | exact Hp].
  - pose proof (Hloop (zeros 256) 300%nat eq_refl) as H.
    destruct (loop 300 (boot (zeros 256)) []); apply H.
Defined.

(** C8, as stated, fails: on an instruction memory of 256 zero words (each
    one a [MOV REG0, REG0]) the 257th cycle fetches [rom[256]]. *)
Lemma fetch_past_end_of_rom :
  match loop 256 (boot (zeros 256)) [] with
  | Running s _ => pc s = 256 /\ in_bounds (rom s) (pc s) = false
  | _ => False
  end /\
  match loop 257 (boot (zeros 256)) [] with
  | Undefined s _ => pc s = 256
  | _ => False
  end.
Proof. vm_compute. repeat split; reflexivity. Qed.

(** * Further properties of the codec *)

Lemma op_code_signed_check :
  all_shorts
    (fun w =>
       (-16 <=? op_code w) && (op_code w <=? 15)
       && (if 0 <=? w then op_code w =? opcode_field w
           else op_code w =? opcode_field w - 32))
  = true.
Proof. vm_compute. reflexivity. Qed.

(** X1.  [op_code] shifts a signed word and applies no mask: on every word
    it returns a number in -16..15, the opcode field itself when bit 15 of
    the word is clear and the field minus 32 when it is set. *)
Theorem op_code_is_signed_field (w : Z) :
  is_short w ->
  -16 <= op_code w <= 15 /\
  (0 <= w -> op_code w = opcode_field w) /\
  (w < 0 -> op_code w = opcode_field w - 32).
Proof.
  intros Hs.
  pose proof (all_shorts_spec _ op_code_signed_check w Hs) as H.
  cbv beta in H.
  apply andb_true_iff in H as [H Hf].
  apply andb_true_iff in H as [Hlo Hhi].
  apply Z.leb_le in Hlo, Hhi.
  split; [lia|].
  destruct (0 <=? w) eqn:Hw; apply Z.eqb_eq in Hf.
  - apply Z.leb_le in Hw. split; [intros _; exact Hf | lia].
  - apply Z.leb_gt in Hw. split; [lia | intros _; exact Hf].
Qed.

Lemma op_code_is_signed_field_witness :
  op_code (to_short 0xF800) = -1 /\ opcode_field (to_short 0xF800) = 31.
Proof.
  destruct (op_code_is_signed_field (to_short 0xF800)) as (_ & _ & Hneg).
  - unfold is_short. vm_compute. split; [discriminate | reflexivity].
  - split; [|reflexivity]. rewrite Hneg by (vm_compute; reflexivity).
    reflexivity.
Defined.

Lemma two_register_words_positive :
  all_regs (fun ra => all_regs (fun rb =>
    forallb (fun w => (0 <=? w) && (w <? 0x8000)
                      && (opcode_field w =? op_code w))
      [Asm.mov ra rb; Asm.add ra rb; Asm.sub ra rb; Asm.and ra rb;
       Asm.or ra rb; Asm.cmp ra rb]))
  = true.
Proof. vm_compute. reflexivity. Qed.

Lemma immediate_words_positive :
  all_regs (fun ra => all_bytes (fun imm =>
    forallb (fun w => (0 <=? w) && (w <? 0x8000)
                      && (opcode_field w =? op_code w))
      [Asm.sl ra; Asm.sr ra; Asm.sra ra; Asm.ldl ra imm; Asm.ldh ra imm;
       Asm.je imm; Asm.jmp imm; Asm.ld ra imm; Asm.st ra imm; Asm.hlt]))
  = true.
Proof. vm_compute. reflexivity. Qed.

(** X2.  With register numbers in 0..7 (and any byte as immediate or
    address) no encoder sets bit 15: every word it returns is in 0..0x7FFF,
    so the conversion to [short] on [return] changes nothing and the unmasked
    [op_code] reads the opcode field. *)
Theorem encoders_leave_bit_15_clear (ra rb imm : Z) :
  0 <= ra <= 7 -> 0 <= rb <= 7 -> 0 <= imm <= 255 ->
  Forall (fun w => 0 <= w < 0x8000 /\ opcode_field w = op_code w)
    [Asm.mov ra rb; Asm.add ra rb; Asm.sub ra rb; Asm.and ra rb;
     Asm.or ra rb; Asm.sl ra; Asm.sr ra; Asm.sra ra; Asm.ldl ra imm;
     Asm.ldh ra imm; Asm.cmp ra rb; Asm.je imm; Asm.jmp imm;
     Asm.ld ra imm; Asm.st ra imm; Asm.hlt].
Proof.
  intros Ha Hb Hi.
  pose proof (all_regs_spec _ two_register_words_positive ra Ha) as Hrr.
  cbv beta in Hrr.
  pose proof (all_regs_spec _ Hrr rb Hb) as Hrr'. cbv beta in Hrr'.
  pose proof (all_regs_spec _ immediate_words_positive ra Ha) as Hri.
  cbv beta in Hri.
  pose proof (all_bytes_spec _ Hri imm Hi) as Hri'. cbv beta in Hri'.
  assert (Hw : forall w,
             In w [Asm.mov ra rb; Asm.add ra rb; Asm.sub ra rb;
                   Asm.and ra rb; Asm.or ra rb; Asm.cmp ra rb]
             \/ In w [Asm.sl ra; Asm.sr ra; Asm.sra ra; Asm.ldl ra imm;
                      Asm.ldh ra imm; Asm.je imm; Asm.jmp imm;
                      Asm.ld ra imm; Asm.st ra imm; Asm.hlt] ->
             0 <= w < 0x8000 /\ opcode_field w = op_code w).
  { intros w Hin.
    assert (H : (0 <=? w) && (w <? 0x8000) && (opcode_field w =? op_code w)
                = true)
      by (destruct Hin as [Hin|Hin];
          [exact (proj1 (forallb_forall _ _) Hrr' w Hin)
          |exact (proj1 (forallb_forall _ _) Hri' w Hin)]).
    apply andb_true_iff in H as [H Hf].
    apply andb_true_iff in H as [Hlo Hhi].
    apply Z.leb_le in Hlo. apply Z.ltb_lt in Hhi. apply Z.eqb_eq in Hf.
    split; [lia | exact Hf]. }
  repeat (constructor; [apply Hw; cbn [In]; tauto|]).
  constructor.
Qed.

Lemma encoders_leave_bit_15_clear_witness :
  0 <= Asm.st 7 255 < 0x8000.
Proof.
  pose proof (encoders_leave_bit_15_clear 7 7 255
                ltac:(lia) ltac:(lia) ltac:(lia)) as H.
  apply (proj1 (List.Forall_forall _ _) H (Asm.st 7 255)).
  simpl. tauto.
Defined.

Lemma regB_overlap_check :
  all_shorts
    (fun w => (op_regB w =? Z.shiftr (op_data w) 5)
              && (op_data w =? op_addr w))
  = true.
Proof. vm_compute. reflexivity. Qed.

(** X3.  The register-B field lies inside the low byte: on every word
    [op_regB] is the top three bits of what [op_data] returns, and [op_data]
    and [op_addr] return the same byte. *)
Theorem regB_is_top_of_low_byte (w : Z) :
  is_short w ->
  op_regB w = Z.shiftr (op_data w) 5 /\ op_data w = op_addr w.
Proof.
  intros Hs.
  pose proof (all_shorts_spec _ regB_overlap_check w Hs) as H. cbv beta in H.
  apply andb_true_iff in H as [H1 H2].
  apply Z.eqb_eq in H1, H2. auto.
Qed.

Lemma regB_is_top_of_low_byte_witness :
  op_regB (Asm.ldl 0 0xE0) = 7.
Proof.
  destruct (regB_is_top_of_low_byte (Asm.ldl 0 0xE0)) as [H _].
  - unfold is_short. vm_compute. split; [discriminate | reflexivity].
  - rewrite H. reflexivity.
Defined.

(** * Further properties of the interpreter *)

Section MoreArrays.

Lemma aget_aset_frame (a a' : list Z) (i j v : Z) :
  aset a i v = Some a' -> j <> i -> aget a' j = aget a j.
Proof.
  unfold aset, aget. destruct (in_bounds a i) eqn:Hi; [|discriminate].
  intros [= <-] Hne. apply in_bounds_iff in Hi.
  unfold in_bounds at 1. rewrite length_insert. fold (in_bounds a j).
  destruct (in_bounds a j) eqn:Hj; [|reflexivity].
  apply in_bounds_iff in Hj. apply list_lookup_insert_ne. lia.
Qed.

Lemma aget_Forall (P : Z -> Prop) (a : list Z) (i v : Z) :
  aget a i = Some v -> Forall P a -> P v.
Proof.
  unfold aget. destruct (in_bounds a i); [|discriminate].
  intros Hl Ha. exact (Forall_lookup_1 P a _ v Ha Hl).
Qed.

Lemma aset_Forall (P : Z -> Prop) (a a' : list Z) (i v : Z) :
  aset a i v = Some a' -> Forall P a -> P v -> Forall P a'.
Proof.
  unfold aset. destruct (in_bounds a i); [|discriminate].
  intros [= <-] Ha Hv. apply Forall_insert; assumption.
Qed.

Lemma zeros_short (n : nat) : Forall is_short (zeros n).
Proof.
  apply List.Forall_forall. intros x Hx.
  apply repeat_spec in Hx. subst x. unfold is_short. lia.
Qed.

End MoreArrays.

Lemma cycle_inv_raw (s : cpu) (t : trace_line) (s' : cpu) (again : bool) :
  cycle s = Some (t, s', again) ->
  exists ir,
    fetch s = Some ir /\ trace ir s = Some t /\
    execute ir (set_pc s (to_short (pc s + 1))) = Some s' /\
    again = negb (op_code ir =? HLT).
Proof.
  unfold cycle, bind. destruct (fetch s) as [ir|] eqn:Hf; [|discriminate].
  destruct (trace ir s) as [t0|] eqn:Ht; [|discriminate].
  destruct (execute ir _) as [s0|] eqn:He; [|discriminate].
  intros [= <- <- <-]. exists ir. auto.
Qed.

(** X4.  Nothing in the loop assigns to [rom]: however a bounded run ends
    (halted, still running, or at an access outside an array), the
    instruction memory is the one the run started with. *)
Theorem rom_never_written (n : nat) (s : cpu) (tr : list trace_line) :
  rom (outcome_state (loop n s tr)) = rom s.
Proof.
  revert s tr. induction n as [|n IH]; intros s tr; cbn; [reflexivity|].
  destruct (cycle s) as [[[t s1] again]|] eqn:Hc; [|reflexivity].
  destruct (cycle_inv_raw _ _ _ _ Hc) as (ir & _ & _ & He & _).
  apply execute_rom in He. cbn in He.
  destruct again; [rewrite IH|]; exact He.
Qed.

Section ShortCells.

Lemma execute_short_cells (ir : Z) (s s' : cpu) :
  short_cells s -> execute ir s = Some s' -> short_cells s'.
Proof.
  intros (Hr & Hm & Hp & Hf) H. unfold short_cells.
  assert (Haddr : is_short (op_addr ir))
    by (pose proof (op_addr_range ir); unfold is_short; lia).
  by_opcode H; cbn;
    repeat match goal with
           | E : aget _ _ = Some _ |- _ =>
               first [ pose proof (aget_Forall is_short _ _ _ E Hr)
                     | pose proof (aget_Forall is_short _ _ _ E Hm) ];
               clear E
           end;
    repeat match goal with
           | E : aset _ _ _ = Some ?l |- _ =>
               assert (Forall is_short l)
                 by (first [ eapply (aset_Forall is_short _ _ _ _ E Hr)
                           | eapply (aset_Forall is_short _ _ _ _ E Hm) ];
                     first [ assumption | apply to_short_is_short ]);
               clear E
           end;
    refine (conj _ (conj _ (conj _ _))); try assumption; auto.
Qed.

Lemma cycle_short_cells (s : cpu) (t : trace_line) (s' : cpu) (b : bool) :
  short_cells s -> cycle s = Some (t, s', b) -> short_cells s'.
Proof.
  intros (Hr & Hm & Hp & Hf) Hc.
  destruct (cycle_inv_raw _ _ _ _ Hc) as (ir & _ & _ & He & _).
  apply (execute_short_cells ir (set_pc s (to_short (pc s + 1))) s');
    [|exact He].
  refine (conj Hr (conj Hm (conj _ Hf))). apply to_short_is_short.
Qed.

Lemma boot_short_cells (image : list Z) : short_cells (boot image).
Proof.
  refine (conj (zeros_short 8) (conj (zeros_short 256) (conj _ _))); cbn.
  - unfold is_short. lia.
  - left. reflexivity.
Qed.

End ShortCells.

(** X5.  Every value the loop stores has been converted to [short] or copied
    from a cell: if registers, data memory and [pc] hold [short]s and
    [flag_eq] is 0 or 1, the same is true however a bounded run ends.  The
    state in which [main] starts is such a state, whatever the words in the
    instruction memory. *)
Theorem cells_stay_short :
  (forall s n tr,
      short_cells s -> short_cells (outcome_state (loop n s tr))) /\
  (forall image, short_cells (boot image)).
Proof.
  split; [|exact boot_short_cells].
  intros s n. revert s. induction n as [|n IH]; intros s tr Hs; cbn;
    [exact Hs|].
  destruct (cycle s) as [[[t s1] again]|] eqn:Hc; [|exact Hs].
  pose proof (cycle_short_cells _ _ _ _ Hs Hc) as Hs1.
  destruct again; [apply IH|]; exact Hs1.
Qed.

Lemma cells_stay_short_witness :
  short_cells (outcome_state (loop 68 bundled [])).
Proof.
  destruct cells_stay_short as [Hloop Hboot].
  exact (Hloop bundled 68%nat [] (Hboot (assembler (zeros 256)))).
Defined.

(** ** The cases of the [switch], one equation each *)

Section Cases.

Variables (ir : Z) (s : cpu).
Hypothesis Hwf : well_formed s.

Lemma execute_mov (b : Z) :
  aget (reg s) (op_regB ir) = Some b -> op_code ir = MOV ->
  execute ir s = Some (set_reg s (<[Z.to_nat (op_regA ir) := b]> (reg s))).
Proof.
  intros Hb Hop. unfold execute. rewrite Hop. known_opcode.
  rewrite Hb. cbn [bind]. apply write_regA_defined. exact Hwf.
Qed.

Lemma execute_add (a b : Z) :
  aget (reg s) (op_regA ir) = Some a -> aget (reg s) (op_regB ir) = Some b ->
  op_code ir = ADD ->
  execute ir s
  = Some (set_reg s (<[Z.to_nat (op_regA ir) := to_short (a + b)]> (reg s))).
Proof.
  intros Ha Hb Hop. unfold execute. rewrite Hop. known_opcode.
  rewrite Ha, Hb. cbn [bind]. apply write_regA_defined. exact Hwf.
Qed.

Lemma execute_sub (a b : Z) :
  aget (reg s) (op_regA ir) = Some a -> aget (reg s) (op_regB ir) = Some b ->
  op_code ir = SUB ->
  execute ir s
  = Some (set_reg s (<[Z.to_nat (op_regA ir) := to_short (a - b)]> (reg s))).
Proof.
  intros Ha Hb Hop. unfold execute. rewrite Hop. known_opcode.
  rewrite Ha, Hb. cbn [bind]. apply write_regA_defined. exact Hwf.
Qed.

Lemma execute_and (a b : Z) :
  aget (reg s) (op_regA ir) = Some a -> aget (reg s) (op_regB ir) = Some b ->
  op_code ir = AND ->
  execute ir s
  = Some (set_reg s
            (<[Z.to_nat (op_regA ir) := to_short (Z.land a b)]> (reg s))).
Proof.
  intros Ha Hb Hop. unfold execute. rewrite Hop. known_opcode.
  rewrite Ha, Hb. cbn [bind]. apply write_regA_defined. exact Hwf.
Qed.

Lemma execute_or (a b : Z) :
  aget (reg s) (op_regA ir) = Some a -> aget (reg s) (op_regB ir) = Some b ->
  op_code ir = OR ->
  execute ir s
  = Some (set_reg s
            (<[Z.to_nat (op_regA ir) := to_short (Z.lor a b)]> (reg s))).
Proof.
  intros Ha Hb Hop. unfold execute. rewrite Hop. known_opcode.
  rewrite Ha, Hb. cbn [bind]. apply write_regA_defined. exact Hwf.
Qed.

Lemma execute_sl (a : Z) :
  aget (reg s) (op_regA ir) = Some a -> op_code ir = SL ->
  execute ir s
  = Some (set_reg s
            (<[Z.to_nat (op_regA ir) := to_short (Z.shiftl a 1)]> (reg s))).
Proof.
  intros Ha Hop. unfold execute. rewrite Hop. known_opcode.
  rewrite Ha. cbn [bind]. apply write_regA_defined. exact Hwf.
Qed.

Lemma execute_ldl (a : Z) :
  aget (reg s) (op_regA ir) = Some a -> op_code ir = LDL ->
  execute ir s
  = Some (set_reg s
            (<[Z.to_nat (op_regA ir)
               := to_short (Z.lor (Z.land a 0xff00)
                                  (Z.land (op_data ir) 0x00ff))]> (reg s))).
Proof.
  intros Ha Hop. unfold execute. rewrite Hop. known_opcode.
  rewrite Ha. cbn [bind]. apply write_regA_defined. exact Hwf.
Qed.

Lemma execute_ldh (a : Z) :
  aget (reg s) (op_regA ir) = Some a -> op_code ir = LDH ->
  execute ir s
  = Some (set_reg s
            (<[Z.to_nat (op_regA ir)
               := to_short (Z.lor (Z.shiftl (op_data ir) 8)
                                  (Z.land a 0x00ff))]> (reg s))).
Proof.
  intros Ha Hop. unfold execute. rewrite Hop. known_opcode.
  rewrite Ha. cbn [bind]. apply write_regA_defined. exact Hwf.
Qed.

Lemma execute_jmp :
  op_code ir = JMP -> execute ir s = Some (set_pc s (op_addr ir)).
Proof.
  intros Hop. unfold execute. rewrite Hop. known_opcode. reflexivity.
Qed.

Lemma execute_ld (m : Z) :
  aget (ram s) (op_addr ir) = Some m -> op_code ir = LD ->
  execute ir s = Some (set_reg s (<[Z.to_nat (op_regA ir) := m]> (reg s))).
Proof.
  intros Hm Hop. unfold execute. rewrite Hop. known_opcode.
  rewrite Hm. cbn [bind]. apply write_regA_defined. exact Hwf.
Qed.

Lemma execute_st (a : Z) :
  aget (reg s) (op_regA ir) = Some a -> op_code ir = ST ->
  execute ir s = Some (set_ram s (<[Z.to_nat (op_addr ir) := a]> (ram s))).
Proof.
  intros Ha Hop. unfold execute. rewrite Hop. known_opcode.
  rewrite Ha. cbn [bind]. rewrite ram_write_defined by exact Hwf.
  reflexivity.
Qed.

End Cases.

(** X6.  An instruction writes at most one cell.  Whatever the word, after
    the [switch] every register but the one named by the register-A field is
    as before and so is every data-memory cell but the one named by the
    address field; the data memory is untouched unless the opcode is [ST],
    and the register file is untouched by [ST], [CMP], [JE], [JMP], [HLT]
    and the words that are no instruction. *)
Theorem execute_writes_one_cell (ir : Z) (s s' : cpu) :
  execute ir s = Some s' ->
  (forall j, j <> op_regA ir -> aget (reg s') j = aget (reg s) j) /\
  (forall j, j <> op_addr ir -> aget (ram s') j = aget (ram s) j) /\
  (op_code ir <> ST -> ram s' = ram s) /\
  (op_code ir = ST \/ op_code ir = CMP \/ op_code ir = JE \/
   op_code ir = JMP \/ ~ (0 <= op_code ir <= 14) -> reg s' = reg s).
Proof.
  intros H. by_opcode H; cbn;
    repeat match goal with
           | E : (_ =? _) = true |- _ => apply Z.eqb_eq in E
           | E : (_ =? _) = false |- _ => apply Z.eqb_neq in E
           end;
    (split;
     [intros j Hj;
      first [reflexivity | eapply aget_aset_frame; eassumption]|]);
    (split;
     [intros j Hj;
      first [reflexivity | eapply aget_aset_frame; eassumption]|]);
    (split; [intros Hne; first [reflexivity | congruence]|]);
    intros Hd;
    first [ reflexivity
          | exfalso;
            cbv [MOV ADD SUB AND OR SL SR SRA LDL LDH CMP JE JMP LD ST HLT]
              in *; lia ].
Qed.

Lemma execute_writes_one_cell_witness :
  exists s',
    execute (Asm.st REG0 64) bundled = Some s' /\ reg s' = reg bundled /\
    aget (ram s') 63 = aget (ram bundled) 63.
Proof.
  destruct (execute_defined (Asm.st REG0 64) bundled bundled_well_formed)
    as [s' He].
  destruct (execute_writes_one_cell _ _ _ He) as (_ & Hram & _ & Hreg).
  exists s'. split; [exact He|]. split.
  - apply Hreg. left. reflexivity.
  - apply Hram. vm_compute. discriminate.
Defined.



(** ** The trace *)

Lemma trace_line_of (ir : Z) (s : cpu) (t : trace_line) :
  trace ir s = Some t -> t_pc t = pc s /\ t_ir t = ir.
Proof.
  unfold trace, bind.
  repeat match goal with
         | |- context [match ?x with _ => _ end] => destruct x
         end; try discriminate.
  intros [= <-]. split; reflexivity.
Qed.

(** X8.  The trace of a halted run is the trace already printed followed by
    one line per cycle, at most as many as the bound allows; every line
    shows the word stored in the instruction memory at the line's [pc]; the
    last line holds an [HLT] and no line before it does. *)
Theorem trace_of_a_halted_run (n : nat) :
  forall s tr s' tr',
    loop n s tr = Halted s' tr' ->
    exists front t,
      tr' = tr ++ front ++ [t] /\
      (length front < n)%nat /\
      Forall (fun l => aget (rom s) (t_pc l) = Some (t_ir l)) (front ++ [t]) /\
      Forall (fun l => op_code (t_ir l) <> HLT) front /\
      op_code (t_ir t) = HLT.
Proof.
  induction n as [|n IH]; intros s tr s' tr' H; [discriminate|].
  cbn in H. destruct (cycle s) as [[[t s1] again]|] eqn:Hc; [|discriminate].
  destruct (cycle_inv_raw _ _ _ _ Hc) as (ir & Hf & Ht & He & Ha).
  destruct (trace_line_of _ _ _ Ht) as [Hp Hi].
  assert (Hcell : aget (rom s) (t_pc t) = Some (t_ir t))
    by (rewrite Hp, Hi; exact Hf).
  destruct again.
  - destruct (IH _ _ _ _ H) as (front & tl & Htr & Hlen & Hrom & Hnot & Hl).
    apply execute_rom in He. cbn [rom set_pc] in He. rewrite He in Hrom.
    exists (t :: front), tl.
    split; [rewrite Htr, <- app_assoc; reflexivity|].
    split; [cbn; lia|].
    split; [cbn; constructor; assumption|].
    split; [|exact Hl].
    constructor; [|exact Hnot].
    symmetry in Ha. apply negb_true_iff, Z.eqb_neq in Ha. congruence.
  - injection H as <- <-. exists [], t.
    split; [reflexivity|]. split; [cbn; lia|].
    split; [cbn; constructor; [exact Hcell | constructor]|].
    split; [constructor|].
    symmetry in Ha. apply negb_false_iff, Z.eqb_eq in Ha. congruence.
Qed.

Lemma trace_of_a_halted_run_witness :
  exists front t,
    (length front < 68)%nat /\ Forall (fun l => op_code (t_ir l) <> HLT) front /\
    op_code (t_ir t) = HLT.
Proof.
  destruct bundled_halts as (s' & tr' & Hl & _).
  destruct (trace_of_a_halted_run 68 bundled [] s' tr' Hl)
    as (front & t & _ & Hlen & _ & Hnot & Hlast).
  exists front, t. auto.
Defined.

(** ** Cycles that change nothing *)

Lemma set_pc_back (s : cpu) (p : Z) : set_pc (set_pc s p) (pc s) = s.
Proof. destruct s. reflexivity. Qed.

(** X9.  The loop has no bound of its own.  When the word at [pc] is a
    [JMP] to [pc] itself, the cycle leaves the state exactly as it found it:
    however many cycles are run the loop is still running, in that same
    state, and has printed one line per cycle. *)
Theorem jump_to_self_never_halts (s : cpu) :
  well_formed s -> fetch s = Some (Asm.jmp (pc s)) ->
  forall n tr,
    exists lines,
      loop n s tr = Running s (tr ++ lines) /\ length lines = n.
Proof.
  intros Hwf Hf.
  pose proof (fetch_range s Hwf _ Hf) as Hpc.
  destruct (i_ok_sound _ _ jmp_ok (pc s) ltac:(lia)) as (Hop & _ & Haddr).
  destruct (cycle_defined s Hwf _ Hf) as (t & s' & Hc & _ & _ & He & _).
  rewrite (execute_jmp _ _ Hop), Haddr in He. cbn [set_pc] in He.
  rewrite Hop in Hc. change (negb (JMP =? HLT)) with true in Hc.
  assert (Hs' : s' = s)
    by (injection He as <-; destruct s; reflexivity).
  subst s'.
  induction n as [|n IH]; intros tr.
  - exists []. cbn. rewrite app_nil_r. auto.
  - cbn. rewrite Hc. destruct (IH (tr ++ [t])) as (lines & Hl & Hlen).
    exists (t :: lines). rewrite Hl, <- app_assoc. cbn. auto.
Qed.

Lemma jump_to_self_never_halts_witness :
  exists lines,
    loop 1000 (boot (rom_of [Asm.jmp 0])) []
    = Running (boot (rom_of [Asm.jmp 0])) lines /\
    length lines = 1000%nat.
Proof.
  destruct (jump_to_self_never_halts (boot (rom_of [Asm.jmp 0]))
              (boot_well_formed (rom_of [Asm.jmp 0]) eq_refl)
              eq_refl 1000%nat [])
    as (lines & Hl & Hlen).
  exists lines. split; [exact Hl | exact Hlen].
Defined.

(** X10.  [MOV] of a register to itself stores the value the register
    already has: the [switch] gives back the state unchanged.  The word 0 is
    [MOV REG0, REG0], so a cycle on a cell of the instruction memory that
    was never written only advances [pc], and the loop goes on. *)
Theorem mov_to_self_changes_nothing :
  (forall ir s,
      well_formed s -> op_code ir = MOV -> op_regA ir = op_regB ir ->
      execute ir s = Some s) /\
  (forall s,
      well_formed s -> fetch s = Some 0 ->
      exists t, cycle s = Some (t, set_pc s (pc s + 1), true) /\
                t_pc t = pc s /\ t_ir t = 0).
Proof.
  assert (Hmov : forall ir s,
             well_formed s -> op_code ir = MOV -> op_regA ir = op_regB ir ->
             execute ir s = Some s).
  { intros ir s Hwf Hop Hab.
    destruct (regB_defined ir s Hwf) as [b Hb].
    rewrite (execute_mov ir s Hwf b Hb Hop). f_equal.
    assert (Hl : reg s !! Z.to_nat (op_regA ir) = Some b).
    { rewrite Hab. unfold aget in Hb.
      destruct (in_bounds (reg s) (op_regB ir)); [exact Hb | discriminate]. }
    unfold set_reg. rewrite (list_insert_id _ _ _ Hl).
    destruct s. reflexivity. }
  split; [exact Hmov|].
  intros s Hwf Hf.
  destruct (cycle_defined s Hwf 0 Hf) as (t & s' & Hc & Hp & Hi & He & _).
  rewrite (Hmov 0 (set_pc s (pc s + 1)) Hwf eq_refl eq_refl) in He.
  injection He as <-. exists t. auto.
Qed.

Lemma mov_to_self_changes_nothing_witness :
  execute (Asm.mov REG3 REG3) bundled = Some bundled /\
  exists t, cycle (boot (zeros 256))
            = Some (t, set_pc (boot (zeros 256)) 1, true).
Proof.
  destruct mov_to_self_changes_nothing as [Hmov Hzero]. split.
  - apply Hmov; [exact bundled_well_formed | reflexivity | reflexivity].
  - destruct (Hzero (boot (zeros 256))
                (boot_well_formed (zeros 256) eq_refl) eq_refl)
      as (t & Hc & _).
    exists t. exact Hc.
Defined.

(** * What the instructions compute, on the 16 bits of a register *)

Section Bits.

Lemma bits16_land (z : Z) : bits16 z = Z.land z 0xffff.
Proof. unfold bits16. symmetry. exact (Z.land_ones z 16 ltac:(lia)). Qed.

Lemma bits16_small (z : Z) : 0 <= z < 65536 -> bits16 z = z.
Proof. intros H. unfold bits16. apply Z.mod_small. exact H. Qed.

Lemma add_bits (a b : Z) :
  bits16 (to_short (a + b)) = (bits16 a + bits16 b) mod 65536.
Proof. rewrite bits16_to_short. unfold bits16. apply Zplus_mod. Qed.

Lemma sub_bits (a b : Z) :
  bits16 (to_short (a - b)) = (bits16 a - bits16 b) mod 65536.
Proof. rewrite bits16_to_short. unfold bits16. apply Zminus_mod. Qed.

Lemma and_bits (a b : Z) :
  bits16 (to_short (Z.land a b)) = Z.land (bits16 a) (bits16 b).
Proof.
  rewrite bits16_to_short, !bits16_land.
  apply Z.bits_inj'. intros n _. rewrite !Z.land_spec.
  destruct (Z.testbit a n), (Z.testbit b n), (Z.testbit 0xffff n);
    reflexivity.
Qed.

Lemma or_bits (a b : Z) :
  bits16 (to_short (Z.lor a b)) = Z.lor (bits16 a) (bits16 b).
Proof.
  rewrite bits16_to_short, !bits16_land. apply Z.land_lor_distr_l.
Qed.

Lemma sl_bits (a : Z) :
  bits16 (to_short (Z.shiftl a 1)) = (2 * bits16 a) mod 65536.
Proof.
  rewrite bits16_to_short. unfold bits16.
  rewrite Z.shiftl_mul_pow2 by lia.
  replace (a * 2 ^ 1) with (2 * a) by lia.
  rewrite (Zmult_mod 2 a), (Zmult_mod 2 (a mod 65536)), Zmod_mod.
  reflexivity.
Qed.

End Bits.

(** X11.  [ADD] and [SUB] wrap around: the value stored in register A is a
    [short] whose 16 bits are the sum (the difference) of the operands' 16
    bits modulo 2^16, and it is the exact sum (difference) whenever that is
    itself in the range of a [short]. *)
Theorem add_sub_wrap_around (ir : Z) (s : cpu) (a b : Z) :
  well_formed s ->
  aget (reg s) (op_regA ir) = Some a -> aget (reg s) (op_regB ir) = Some b ->
  (op_code ir = ADD ->
   exists v,
     execute ir s
     = Some (set_reg s (<[Z.to_nat (op_regA ir) := v]> (reg s))) /\
     is_short v /\
     bits16 v = (bits16 a + bits16 b) mod 65536 /\
     (is_short (a + b) -> v = a + b)) /\
  (op_code ir = SUB ->
   exists v,
     execute ir s
     = Some (set_reg s (<[Z.to_nat (op_regA ir) := v]> (reg s))) /\
     is_short v /\
     bits16 v = (bits16 a - bits16 b) mod 65536 /\
     (is_short (a - b) -> v = a - b)).
Proof.
  intros Hwf Ha Hb. split; intros Hop.
  - exists (to_short (a + b)).
    split; [exact (execute_add ir s Hwf a b Ha Hb Hop)|].
    split; [apply to_short_is_short|].
    split; [apply add_bits | apply to_short_id].
  - exists (to_short (a - b)).
    split; [exact (execute_sub ir s Hwf a b Ha Hb Hop)|].
    split; [apply to_short_is_short|].
    split; [apply sub_bits | apply to_short_id].
Qed.

Lemma add_sub_wrap_around_witness :
  exists v,
    execute (Asm.add REG0 REG0) reg0_is_0x8000
    = Some (set_reg reg0_is_0x8000 (<[0%nat := v]> (reg reg0_is_0x8000))) /\
    bits16 v = 0.
Proof.
  destruct (proj1 (add_sub_wrap_around (Asm.add REG0 REG0) reg0_is_0x8000
                     (-32768) (-32768) ltac:(repeat split; reflexivity)
                     eq_refl eq_refl) eq_refl)
    as (v & He & _ & Hb & _).
  exists v. split; [exact He|]. rewrite Hb. reflexivity.
Defined.

(** X12.  [AND] and [OR] work bit by bit on the 16 bits of the registers,
    negative values included: the 16 bits stored in register A are the
    bitwise and (or) of the 16 bits of the two operands. *)
Theorem and_or_bitwise (ir : Z) (s : cpu) (a b : Z) :
  well_formed s ->
  aget (reg s) (op_regA ir) = Some a -> aget (reg s) (op_regB ir) = Some b ->
  (op_code ir = AND ->
   exists v,
     execute ir s
     = Some (set_reg s (<[Z.to_nat (op_regA ir) := v]> (reg s))) /\
     is_short v /\ bits16 v = Z.land (bits16 a) (bits16 b)) /\
  (op_code ir = OR ->
   exists v,
     execute ir s
     = Some (set_reg s (<[Z.to_nat (op_regA ir) := v]> (reg s))) /\
     is_short v /\ bits16 v = Z.lor (bits16 a) (bits16 b)).
Proof.
  intros Hwf Ha Hb. split; intros Hop.
  - exists (to_short (Z.land a b)).
    split; [exact (execute_and ir s Hwf a b Ha Hb Hop)|].
    split; [apply to_short_is_short | apply and_bits].
  - exists (to_short (Z.lor a b)).
    split; [exact (execute_or ir s Hwf a b Ha Hb Hop)|].
    split; [apply to_short_is_short | apply or_bits].
Qed.

Lemma and_or_bitwise_witness :
  exists v,
    execute (Asm.or REG1 REG0) reg0_is_0x8000
    = Some (set_reg reg0_is_0x8000 (<[1%nat := v]> (reg reg0_is_0x8000))) /\
    bits16 v = 0x8000.
Proof.
  destruct (proj2 (and_or_bitwise (Asm.or REG1 REG0) reg0_is_0x8000
                     0 (-32768) ltac:(repeat split; reflexivity)
                     eq_refl eq_refl) eq_refl)
    as (v & He & _ & Hb).
  exists v. split; [exact He|]. rewrite Hb. reflexivity.
Defined.

(** ** Instructions one after the other *)

Section Sequences.

Lemma aget_insert_same (a : list Z) (i v : Z) :
  0 <= i < Z.of_nat (length a) -> aget (<[Z.to_nat i := v]> a) i = Some v.
Proof.
  intros Hi. apply (aget_aset_same a _ i v). apply aset_defined. exact Hi.
Qed.

Lemma set_reg_well_formed (s : cpu) (i : nat) (v : Z) :
  well_formed s -> well_formed (set_reg s (<[i := v]> (reg s))).
Proof.
  intros (Hr & Ho & Hm). unfold well_formed. cbn.
  rewrite length_insert. auto.
Qed.

Lemma set_ram_well_formed (s : cpu) (i : nat) (v : Z) :
  well_formed s -> well_formed (set_ram s (<[i := v]> (ram s))).
Proof.
  intros (Hr & Ho & Hm). unfold well_formed. cbn.
  rewrite length_insert. auto.
Qed.

Lemma set_reg_twice (s : cpu) (i : nat) (v1 v2 : Z) :
  set_reg (set_reg s (<[i := v1]> (reg s)))
          (<[i := v2]> (reg (set_reg s (<[i := v1]> (reg s)))))
  = set_reg s (<[i := v2]> (reg s)).
Proof. unfold set_reg. cbn. rewrite list_insert_insert_eq. reflexivity. Qed.

Lemma reg_in_range (s : cpu) (ra : Z) :
  well_formed s -> 0 <= ra <= 7 -> 0 <= ra < Z.of_nat (length (reg s)).
Proof. intros (Hr & _ & _) Ha. lia. Qed.

Lemma sl_sr_check :
  all_shorts
    (fun a =>
       Bool.eqb (to_short (Z.shiftr (to_short (Z.shiftl a 1)) 1) =? a)
                ((-16384 <=? a) && (a <? 16384)))
  = true.
Proof. vm_compute. reflexivity. Qed.

Lemma sl_sr_value (a : Z) :
  is_short a ->
  to_short (Z.shiftr (to_short (Z.shiftl a 1)) 1) = a <-> -16384 <= a < 16384.
Proof.
  intros Hs.
  pose proof (all_shorts_spec _ sl_sr_check a Hs) as H. cbv beta in H.
  apply eqb_prop in H.
  rewrite <- Z.eqb_eq, H, andb_true_iff, Z.leb_le, Z.ltb_lt. tauto.
Qed.

(** The instructions as the encoders build them, register number in range. *)

Lemma run_sl (s : cpu) (ra a : Z) :
  well_formed s -> 0 <= ra <= 7 -> aget (reg s) ra = Some a ->
  execute (Asm.sl ra) s
  = Some (set_reg s (<[Z.to_nat ra := to_short (Z.shiftl a 1)]> (reg s))).
Proof.
  intros Hwf Hra Ha. destruct (r_ok_sound _ _ sl_ok ra Hra) as [Hop HA].
  pose proof (execute_sl (Asm.sl ra) s Hwf a) as H.
  rewrite HA in H. exact (H Ha Hop).
Qed.

Lemma run_sr (s : cpu) (ra a : Z) :
  well_formed s -> 0 <= ra <= 7 -> aget (reg s) ra = Some a ->
  execute (Asm.sr ra) s
  = Some (set_reg s (<[Z.to_nat ra := to_short (Z.shiftr a 1)]> (reg s))).
Proof.
  intros Hwf Hra Ha. destruct (r_ok_sound _ _ sr_ok ra Hra) as [Hop HA].
  pose proof (execute_sr (Asm.sr ra) s a Hwf) as H.
  rewrite HA in H. exact (H Ha Hop).
Qed.

Lemma run_ldh (s : cpu) (ra h a : Z) :
  well_formed s -> 0 <= ra <= 7 -> aget (reg s) ra = Some a ->
  execute (Asm.ldh ra h) s
  = Some (set_reg s
            (<[Z.to_nat ra
               := to_short (Z.lor (Z.shiftl (trunc8 h) 8) (Z.land a 0x00ff))]>
               (reg s))).
Proof.
  intros Hwf Hra Ha. rewrite ldh_masked.
  destruct (ri_ok_sound _ _ ldh_ok ra _ Hra (trunc8_range h))
    as (Hop & HA & HD & _).
  pose proof (execute_ldh (Asm.ldh ra (trunc8 h)) s Hwf a) as H.
  rewrite HA, HD in H. exact (H Ha Hop).
Qed.

Lemma run_ldl (s : cpu) (ra l a : Z) :
  well_formed s -> 0 <= ra <= 7 -> aget (reg s) ra = Some a ->
  execute (Asm.ldl ra l) s
  = Some (set_reg s
            (<[Z.to_nat ra
               := to_short (Z.lor (Z.land a 0xff00)
                                  (Z.land (trunc8 l) 0x00ff))]> (reg s))).
Proof.
  intros Hwf Hra Ha. rewrite ldl_masked.
  destruct (ri_ok_sound _ _ ldl_ok ra _ Hra (trunc8_range l))
    as (Hop & HA & HD & _).
  pose proof (execute_ldl (Asm.ldl ra (trunc8 l)) s Hwf a) as H.
  rewrite HA, HD in H. exact (H Ha Hop).
Qed.

Lemma run_st (s : cpu) (ra addr a : Z) :
  well_formed s -> 0 <= ra <= 7 -> aget (reg s) ra = Some a ->
  execute (Asm.st ra addr) s
  = Some (set_ram s (<[Z.to_nat (trunc8 addr) := a]> (ram s))).
Proof.
  intros Hwf Hra Ha. rewrite st_masked.
  destruct (ri_ok_sound _ _ st_ok ra _ Hra (trunc8_range addr))
    as (Hop & HA & _ & HD).
  pose proof (execute_st (Asm.st ra (trunc8 addr)) s Hwf a) as H.
  rewrite HA, HD in H. exact (H Ha Hop).
Qed.

Lemma run_ld (s : cpu) (ra addr m : Z) :
  well_formed s -> 0 <= ra <= 7 -> aget (ram s) (trunc8 addr) = Some m ->
  execute (Asm.ld ra addr) s
  = Some (set_reg s (<[Z.to_nat ra := m]> (reg s))).
Proof.
  intros Hwf Hra Hm. rewrite ld_masked.
  destruct (ri_ok_sound _ _ ld_ok ra _ Hra (trunc8_range addr))
    as (Hop & HA & _ & HD).
  pose proof (execute_ld (Asm.ld ra (trunc8 addr)) s Hwf m) as H.
  rewrite HA, HD in H. exact (H Hm Hop).
Qed.

End Sequences.

(** X13.  [SL] doubles the 16 bits of register A modulo 2^16 (bit 15 is
    lost, bit 0 becomes 0).  [SL] followed by [SR] on the same register gives
    the register its value back exactly when that value is in
    -16384..16383, that is when its bits 15 and 14 are equal. *)
Theorem sl_doubles_and_sr_undoes_it (s : cpu) (ra a : Z) :
  well_formed s -> 0 <= ra <= 7 ->
  aget (reg s) ra = Some a -> is_short a ->
  (exists v,
      execute (Asm.sl ra) s
      = Some (set_reg s (<[Z.to_nat ra := v]> (reg s))) /\
      is_short v /\ bits16 v = (2 * bits16 a) mod 65536) /\
  (exists w,
      execute2 (Asm.sl ra) (Asm.sr ra) s
      = Some (set_reg s (<[Z.to_nat ra := w]> (reg s))) /\
      (w = a <-> -16384 <= a < 16384)).
Proof.
  intros Hwf Hra Ha Hs.
  pose proof (run_sl s ra a Hwf Hra Ha) as Hexec.
  split.
  - exists (to_short (Z.shiftl a 1)).
    split; [exact Hexec|]. split; [apply to_short_is_short | apply sl_bits].
  - exists (to_short (Z.shiftr (to_short (Z.shiftl a 1)) 1)).
    split; [|exact (sl_sr_value a Hs)].
    unfold execute2. rewrite Hexec. cbn [bind].
    rewrite (run_sr _ ra (to_short (Z.shiftl a 1))).
    + rewrite set_reg_twice. reflexivity.
    + apply set_reg_well_formed. exact Hwf.
    + exact Hra.
    + cbn [reg set_reg]. apply aget_insert_same.
      exact (reg_in_range s ra Hwf Hra).
Qed.

Lemma sl_doubles_and_sr_undoes_it_witness :
  exists w,
    execute2 (Asm.sl REG0) (Asm.sr REG0) reg0_is_0x8000
    = Some (set_reg reg0_is_0x8000 (<[0%nat := w]> (reg reg0_is_0x8000))) /\
    w <> -32768.
Proof.
  destruct (proj2 (sl_doubles_and_sr_undoes_it reg0_is_0x8000 0 (-32768)
                     ltac:(repeat split; reflexivity) ltac:(lia) eq_refl
                     ltac:(unfold is_short; lia)))
    as (w & He & Hiff).
  exists w. split; [exact He|]. intros E. apply Hiff in E. lia.
Defined.

(** ** Loading constants *)

Section Bytes.

Lemma land_byte_id (d : Z) : 0 <= d <= 255 -> Z.land d 0x00ff = d.
Proof.
  intros Hd. rewrite land_255_trunc8. unfold trunc8.
  apply Z.mod_small. lia.
Qed.

Lemma high_byte_check :
  all_bytes (fun d => (Z.land (Z.shiftl d 8) 0xffff =? Z.shiftl d 8)
                      && (Z.land (Z.shiftl d 8) 0xff00 =? Z.shiftl d 8))
  = true.
Proof. vm_compute. reflexivity. Qed.

Lemma high_byte (d : Z) :
  0 <= d <= 255 ->
  Z.land (Z.shiftl d 8) 0xffff = Z.shiftl d 8 /\
  Z.land (Z.shiftl d 8) 0xff00 = Z.shiftl d 8.
Proof.
  intros Hd. pose proof (all_bytes_spec _ high_byte_check d Hd) as H.
  cbv beta in H. apply andb_true_iff in H as [H1 H2].
  apply Z.eqb_eq in H1, H2. auto.
Qed.

Lemma two_bytes_check :
  all_bytes (fun h => all_bytes (fun l =>
    Z.lor (Z.shiftl h 8) l =? 256 * h + l))
  = true.
Proof. vm_compute. reflexivity. Qed.

Lemma two_bytes (h l : Z) :
  0 <= h <= 255 -> 0 <= l <= 255 -> Z.lor (Z.shiftl h 8) l = 256 * h + l.
Proof.
  intros Hh Hl. pose proof (all_bytes_spec _ two_bytes_check h Hh) as H.
  cbv beta in H. pose proof (all_bytes_spec _ H l Hl) as H'. cbv beta in H'.
  apply Z.eqb_eq. exact H'.
Qed.

Lemma ldl_bits (a d : Z) :
  0 <= d <= 255 ->
  bits16 (to_short (Z.lor (Z.land a 0xff00) (Z.land d 0x00ff)))
  = Z.lor (Z.land (bits16 a) 0xff00) d.
Proof.
  intros Hd. rewrite bits16_to_short, !bits16_land, (land_byte_id d Hd).
  rewrite Z.land_lor_distr_l, <- !Z.land_assoc.
  replace (Z.land 0xff00 0xffff) with 0xff00 by reflexivity.
  replace (Z.land 0xffff 0xff00) with 0xff00 by reflexivity.
  f_equal. rewrite <- (land_byte_id d Hd), <- Z.land_assoc. reflexivity.
Qed.

Lemma ldh_bits (a d : Z) :
  0 <= d <= 255 ->
  bits16 (to_short (Z.lor (Z.shiftl d 8) (Z.land a 0x00ff)))
  = Z.lor (Z.shiftl d 8) (Z.land (bits16 a) 0x00ff).
Proof.
  intros Hd. rewrite bits16_to_short, !bits16_land.
  rewrite Z.land_lor_distr_l, <- !Z.land_assoc.
  replace (Z.land 0x00ff 0xffff) with 0x00ff by reflexivity.
  replace (Z.land 0xffff 0x00ff) with 0x00ff by reflexivity.
  rewrite (proj1 (high_byte d Hd)). reflexivity.
Qed.

Lemma ldh_then_ldl_bits (a h l : Z) :
  0 <= h <= 255 -> 0 <= l <= 255 ->
  bits16
    (to_short
       (Z.lor (Z.land (to_short (Z.lor (Z.shiftl h 8) (Z.land a 0x00ff)))
                      0xff00)
              (Z.land l 0x00ff)))
  = 256 * h + l.
Proof.
  intros Hh Hl. rewrite (ldl_bits _ l Hl), (ldh_bits a h Hh).
  rewrite Z.land_lor_distr_l, <- Z.land_assoc.
  replace (Z.land 0x00ff 0xff00) with 0 by reflexivity.
  rewrite Z.land_0_r, Z.lor_0_r, (proj2 (high_byte h Hh)).
  exact (two_bytes h l Hh Hl).
Qed.

End Bytes.

(** X14.  [LDL] replaces the low byte of register A by the immediate and
    keeps the high byte; [LDH] replaces the high byte and keeps the low one.
    This holds on the 16 bits of the register, whatever its sign. *)
Theorem ldl_ldh_replace_one_byte (ir : Z) (s : cpu) (a : Z) :
  well_formed s -> aget (reg s) (op_regA ir) = Some a ->
  (op_code ir = LDL ->
   exists v,
     execute ir s
     = Some (set_reg s (<[Z.to_nat (op_regA ir) := v]> (reg s))) /\
     is_short v /\
     bits16 v = Z.lor (Z.land (bits16 a) 0xff00) (op_data ir)) /\
  (op_code ir = LDH ->
   exists v,
     execute ir s
     = Some (set_reg s (<[Z.to_nat (op_regA ir) := v]> (reg s))) /\
     is_short v /\
     bits16 v = Z.lor (Z.shiftl (op_data ir) 8) (Z.land (bits16 a) 0x00ff)).
Proof.
  intros Hwf Ha. pose proof (op_data_range ir) as Hd.
  split; intros Hop; eexists;
    (split; [first [exact (execute_ldl ir s Hwf a Ha Hop)
                   |exact (execute_ldh ir s Hwf a Ha Hop)]|]);
    (split; [apply to_short_is_short|]).
  - exact (ldl_bits a _ Hd).
  - exact (ldh_bits a _ Hd).
Qed.

Lemma ldl_ldh_replace_one_byte_witness :
  exists v,
    execute (Asm.ldl REG0 0x34) reg0_is_0x8000
    = Some (set_reg reg0_is_0x8000 (<[0%nat := v]> (reg reg0_is_0x8000))) /\
    bits16 v = 0x8034.
Proof.
  destruct (proj1 (ldl_ldh_replace_one_byte (Asm.ldl REG0 0x34)
                     reg0_is_0x8000 (-32768)
                     ltac:(repeat split; reflexivity) eq_refl) eq_refl)
    as (v & He & _ & Hb).
  exists v. split; [exact He|]. rewrite Hb. reflexivity.
Defined.

(** X15.  The pair [LDH ra, h; LDL ra, l], as the assembler builds it,
    loads a 16-bit constant: whatever register [ra] held before, afterwards
    its 16 bits are [h] truncated to 8 bits in the high byte and [l]
    truncated to 8 bits in the low byte, and nothing else has changed. *)
Theorem ldh_ldl_load_a_constant (s : cpu) (ra h l : Z) :
  well_formed s -> 0 <= ra <= 7 ->
  exists v,
    execute2 (Asm.ldh ra h) (Asm.ldl ra l) s
    = Some (set_reg s (<[Z.to_nat ra := v]> (reg s))) /\
    is_short v /\ bits16 v = 256 * trunc8 h + trunc8 l.
Proof.
  intros Hwf Hra.
  destruct (aget_defined (reg s) ra (reg_in_range s ra Hwf Hra)) as [a Ha].
  set (v1 := to_short (Z.lor (Z.shiftl (trunc8 h) 8) (Z.land a 0x00ff))).
  exists (to_short (Z.lor (Z.land v1 0xff00) (Z.land (trunc8 l) 0x00ff))).
  split; [|split].
  - unfold execute2. rewrite (run_ldh s ra h a Hwf Hra Ha). cbn [bind].
    fold v1.
    rewrite (run_ldl (set_reg s (<[Z.to_nat ra := v1]> (reg s))) ra l v1
               (set_reg_well_formed s _ _ Hwf) Hra).
    + rewrite set_reg_twice. reflexivity.
    + cbn [reg set_reg]. apply aget_insert_same.
      exact (reg_in_range s ra Hwf Hra).
  - apply to_short_is_short.
  - exact (ldh_then_ldl_bits a _ _ (trunc8_range h) (trunc8_range l)).
Qed.

Lemma ldh_ldl_load_a_constant_witness :
  exists v,
    execute2 (Asm.ldh REG0 0x12) (Asm.ldl REG0 0x34) reg0_is_0x8000
    = Some (set_reg reg0_is_0x8000 (<[0%nat := v]> (reg reg0_is_0x8000))) /\
    bits16 v = 0x1234.
Proof.
  destruct (ldh_ldl_load_a_constant reg0_is_0x8000 0 0x12 0x34
              ltac:(repeat split; reflexivity) ltac:(lia))
    as (v & He & _ & Hb).
  exists v. split; [exact He|]. rewrite Hb. reflexivity.
Defined.

(** ** Memory and branches *)

Section MemoryAndBranches.

Lemma ram_in_range (s : cpu) (addr : Z) :
  well_formed s -> 0 <= trunc8 addr < Z.of_nat (length (ram s)).
Proof. intros (_ & _ & Hm). pose proof (trunc8_range addr). lia. Qed.

Lemma execute_je (ir : Z) (s : cpu) :
  op_code ir = JE ->
  execute ir s = Some (if flag_eq s =? 1 then set_pc s (op_addr ir) else s).
Proof.
  intros Hop. unfold execute. rewrite Hop. known_opcode. reflexivity.
Qed.

Lemma run_cmp (s : cpu) (ra rb a b : Z) :
  0 <= ra <= 7 -> 0 <= rb <= 7 ->
  aget (reg s) ra = Some a -> aget (reg s) rb = Some b ->
  execute (Asm.cmp ra rb) s = Some (set_flag_eq s (if a =? b then 1 else 0)).
Proof.
  intros Hra Hrb Ha Hb.
  destruct (rr_ok_sound _ _ cmp_ok ra rb Hra Hrb) as (Hop & HA & HB).
  apply execute_cmp; [rewrite HA; exact Ha | rewrite HB; exact Hb | exact Hop].
Qed.

Lemma run_je (s : cpu) (addr : Z) :
  execute (Asm.je addr) s
  = Some (if flag_eq s =? 1 then set_pc s (trunc8 addr) else s).
Proof.
  rewrite je_masked.
  destruct (i_ok_sound _ _ je_ok _ (trunc8_range addr)) as (Hop & _ & HD).
  rewrite (execute_je _ s Hop), HD. reflexivity.
Qed.

End MemoryAndBranches.

(** X16.  What [ST ra, addr] stores, [LD rb, addr] reads back: after the
    two instructions the data-memory cell at [addr] (truncated to 8 bits)
    and register [rb] both hold the value of register [ra], and nothing else
    has changed. *)
Theorem st_then_ld_reads_back (s : cpu) (ra rb addr a : Z) :
  well_formed s -> 0 <= ra <= 7 -> 0 <= rb <= 7 ->
  aget (reg s) ra = Some a ->
  exists s',
    execute2 (Asm.st ra addr) (Asm.ld rb addr) s = Some s' /\
    s' = set_reg (set_ram s (<[Z.to_nat (trunc8 addr) := a]> (ram s)))
                 (<[Z.to_nat rb := a]> (reg s)) /\
    aget (ram s') (trunc8 addr) = Some a /\
    aget (reg s') rb = Some a.
Proof.
  intros Hwf Hra Hrb Ha.
  pose proof (ram_in_range s addr Hwf) as Haddr.
  eexists. split; [|split; [reflexivity|]].
  - unfold execute2. rewrite (run_st s ra addr a Hwf Hra Ha). cbn [bind].
    apply (run_ld (set_ram s (<[Z.to_nat (trunc8 addr) := a]> (ram s)))
             rb addr a (set_ram_well_formed s _ _ Hwf) Hrb).
    cbn [ram set_ram]. exact (aget_insert_same _ _ _ Haddr).
  - cbn [ram reg set_reg set_ram]. split.
    + exact (aget_insert_same _ _ _ Haddr).
    + exact (aget_insert_same _ _ _ (reg_in_range s rb Hwf Hrb)).
Qed.

Lemma st_then_ld_reads_back_witness :
  exists s',
    execute2 (Asm.st REG0 300) (Asm.ld REG5 300) reg0_is_0x8000 = Some s' /\
    aget (ram s') 44 = Some (-32768) /\ aget (reg s') 5 = Some (-32768).
Proof.
  destruct (st_then_ld_reads_back reg0_is_0x8000 0 5 300 (-32768)
              ltac:(repeat split; reflexivity) ltac:(lia) ltac:(lia) eq_refl)
    as (s' & He & _ & Hm & Hr).
  exists s'. split; [exact He|]. split; [exact Hm | exact Hr].
Defined.

(** X17.  [CMP ra, rb] followed by [JE addr] branches exactly when the two
    registers hold the same value: [flag_eq] becomes 1 and [pc] the address
    (truncated to 8 bits) if they are equal, [flag_eq] becomes 0 and [pc]
    stays if they are not; registers and memories are unchanged. *)
Theorem cmp_then_je_branches_on_equality (s : cpu) (ra rb addr a b : Z) :
  0 <= ra <= 7 -> 0 <= rb <= 7 ->
  aget (reg s) ra = Some a -> aget (reg s) rb = Some b ->
  execute2 (Asm.cmp ra rb) (Asm.je addr) s
  = Some (if a =? b then set_pc (set_flag_eq s 1) (trunc8 addr)
          else set_flag_eq s 0).
Proof.
  intros Hra Hrb Ha Hb. unfold execute2.
  rewrite (run_cmp s ra rb a b Hra Hrb Ha Hb). cbn [bind].
  rewrite run_je. destruct (a =? b); reflexivity.
Qed.

Lemma cmp_then_je_branches_on_equality_witness :
  execute2 (Asm.cmp REG1 REG2) (Asm.je 14) reg0_is_0x8000
  = Some (set_pc (set_flag_eq reg0_is_0x8000 1) 14) /\
  execute2 (Asm.cmp REG0 REG1) (Asm.je 14) reg0_is_0x8000
  = Some (set_flag_eq reg0_is_0x8000 0).
Proof.
  split.
  - exact (cmp_then_je_branches_on_equality reg0_is_0x8000 1 2 14 0 0
             ltac:(lia) ltac:(lia) eq_refl eq_refl).
  - exact (cmp_then_je_branches_on_equality reg0_is_0x8000 0 1 14 (-32768) 0
             ltac:(lia) ltac:(lia) eq_refl eq_refl).
Defined.

(** ** The program loader *)

(** X18.  [assembler] writes the cells 0..14 of the array it is given and
    no other: on any array of at least 15 cells the result has the same
    length, its first 15 cells are the bundled program whatever the array
    held there, and the cells from 15 on are as they were. *)
Theorem assembler_writes_cells_0_to_14 (image : list Z) :
  (15 <= length image)%nat ->
  length (assembler image) = length image /\
  take 15 (assembler image) = take 15 (assembler (zeros 256)) /\
  drop 15 (assembler image) = drop 15 image.
Proof.
  intros Hlen.
  do 15 (destruct image as [|? image]; [cbn in Hlen; lia|]).
  split; [|split]; vm_compute; reflexivity.
Qed.

Lemma assembler_writes_cells_0_to_14_witness :
  drop 15 (assembler (repeat 7 20)) = repeat 7 5 /\
  take 15 (assembler (repeat 7 20)) = take 15 (assembler (zeros 256)).
Proof.
  destruct (assembler_writes_cells_0_to_14 (repeat 7 20))
    as (_ & Ht & Hd).
  - cbn. lia.
  - split; [rewrite Hd; reflexivity | exact Ht].
Defined.

(** ** Cells of the instruction memory that are never fetched *)

Section OtherRom.

Variable r : list Z.

Lemma execute_with_rom (ir : Z) (s : cpu) :
  execute ir (with_rom s r)
  = match execute ir s with
    | Some s' => Some (with_rom s' r)
    | None => None
    end.
Proof.
  unfold execute, write_regA, bind, with_rom. cbn [reg ram pc flag_eq rom].
  repeat match goal with
         | |- context [if ?c then _ else _] => destruct c
         end;
    repeat match goal with
           | |- context [match ?x with _ => _ end] => destruct x
           end;
    reflexivity.
Qed.

Lemma cycle_with_rom (s : cpu) (t : trace_line) (s' : cpu) (again : bool) :
  cycle s = Some (t, s', again) ->
  aget r (t_pc t) = Some (t_ir t) ->
  cycle (with_rom s r) = Some (t, with_rom s' r, again).
Proof.
  intros Hc Hcell.
  destruct (cycle_inv_raw _ _ _ _ Hc) as (ir & Hf & Ht & He & Ha).
  destruct (trace_line_of _ _ _ Ht) as [Hp Hi].
  rewrite Hp, Hi in Hcell.
  unfold cycle, fetch. cbn [rom pc with_rom]. rewrite Hcell. cbn [bind].
  change (trace ir (with_rom s r)) with (trace ir s). rewrite Ht. cbn [bind].
  change (set_pc (with_rom s r) (to_short (pc s + 1)))
    with (with_rom (set_pc s (to_short (pc s + 1))) r).
  rewrite execute_with_rom, He. cbn [bind]. rewrite Ha. reflexivity.
Qed.

Lemma loop_extends_trace (n : nat) :
  forall s tr s' tr',
    loop n s tr = Halted s' tr' -> exists lines, tr' = tr ++ lines.
Proof.
  induction n as [|n IH]; intros s tr s' tr' H; [discriminate|].
  cbn in H. destruct (cycle s) as [[[t s1] again]|]; [|discriminate].
  destruct again.
  - destruct (IH _ _ _ _ H) as [lines ->].
    exists (t :: lines). rewrite <- app_assoc. reflexivity.
  - injection H as <- <-. eauto.
Qed.

Lemma loop_with_rom (n : nat) :
  forall s tr s' lines,
    loop n s tr = Halted s' (tr ++ lines) ->
    Forall (fun l => aget r (t_pc l) = Some (t_ir l)) lines ->
    loop n (with_rom s r) tr = Halted (with_rom s' r) (tr ++ lines).
Proof.
  induction n as [|n IH]; intros s tr s' lines H Hall; [discriminate|].
  cbn in H |- *.
  destruct (cycle s) as [[[t s1] again]|] eqn:Hc; [|discriminate].
  destruct again.
  - destruct (loop_extends_trace _ _ _ _ _ H) as [rest Hrest].
    rewrite <- app_assoc in Hrest. apply app_inv_head in Hrest.
    cbn in Hrest. subst lines.
    apply Forall_cons_1 in Hall as [Ht Hall].
    rewrite (cycle_with_rom _ _ _ _ Hc Ht).
    replace (tr ++ t :: rest) with ((tr ++ [t]) ++ rest) in H |- *
      by (rewrite <- app_assoc; reflexivity).
    exact (IH _ _ _ _ H Hall).
  - injection H as <- Hl. apply app_inv_head in Hl. subst lines.
    apply Forall_cons_1 in Hall as [Ht _].
    rewrite (cycle_with_rom _ _ _ _ Hc Ht). reflexivity.
Qed.

End OtherRom.

Lemma bundled_fetches :
  match loop 68 bundled [] with
  | Halted _ tr =>
      forallb (fun l => (0 <=? t_pc l) && (t_pc l <=? 14)
                        && match aget (rom bundled) (t_pc l) with
                           | Some w => w =? t_ir l
                           | None => false
                           end) tr
      = true
  | _ => False
  end.
Proof. vm_compute. reflexivity. Qed.

Lemma assembler_cell (image : list Z) (p : Z) :
  length image = 256%nat -> 0 <= p <= 14 ->
  aget (assembler image) p = aget (assembler (zeros 256)) p.
Proof.
  intros Hlen Hp.
  assert (Htake : take 15 (assembler image) = take 15 (assembler (zeros 256))
                  /\ length (assembler image) = 256%nat).
  { do 15 (destruct image as [|? image]; [discriminate Hlen|]).
    split; [vm_compute; reflexivity|].
    rewrite <- Hlen. vm_compute. reflexivity. }
  destruct Htake as [Htake Hlen'].
  unfold aget, in_bounds. rewrite Hlen'.
  replace (length (assembler (zeros 256))) with 256%nat by reflexivity.
  destruct ((0 <=? p) && (p <? Z.of_nat 256)); [|reflexivity].
  rewrite <- (lookup_take_lt (assembler image) 15) by lia.
  rewrite <- (lookup_take_lt (assembler (zeros 256)) 15) by lia.
  rewrite Htake. reflexivity.
Qed.

(** X19.  A run depends on the instruction memory only through the cells it
    fetches: if a run halts and another instruction memory holds, at the
    [pc] of every line of its trace, the word of that line, then the run on
    that other memory halts after the same cycles with the same trace,
    registers, data memory, [pc] and [flag_eq].  So the result of the
    bundled program does not depend on what the array held before
    [assembler] wrote into it. *)
Theorem unfetched_cells_do_not_matter :
  (forall r n s tr s' lines,
      loop n s tr = Halted s' (tr ++ lines) ->
      Forall (fun l => aget r (t_pc l) = Some (t_ir l)) lines ->
      loop n (with_rom s r) tr = Halted (with_rom s' r) (tr ++ lines)) /\
  (forall image,
      length image = 256%nat ->
      exists s' tr',
        loop 68 (boot (assembler image)) [] = Halted s' tr' /\
        aget (ram s') 64 = Some 55 /\ aget (reg s') 0 = Some 55 /\
        pc s' = 15).
Proof.
  split; [exact loop_with_rom|].
  intros image Hlen.
  destruct bundled_halts as (s' & tr' & Hl & _ & _ & Hram & Hr0 & _ & _ & Hpc).
  pose proof bundled_fetches as Hf. rewrite Hl in Hf.
  exists (with_rom s' (assembler image)), tr'.
  split; [|auto].
  apply (loop_with_rom (assembler image) 68 bundled [] s' tr' Hl).
  apply List.Forall_forall. intros l Hin.
  pose proof (proj1 (forallb_forall _ _) Hf l Hin) as H. cbv beta in H.
  apply andb_true_iff in H as [H Hw].
  apply andb_true_iff in H as [Hlo Hhi].
  apply Z.leb_le in Hlo, Hhi.
  rewrite (assembler_cell image (t_pc l) Hlen (conj Hlo Hhi)).
  change (assembler (zeros 256)) with (rom bundled).
  destruct (aget (rom bundled) (t_pc l)) as [w|]; [|discriminate].
  apply Z.eqb_eq in Hw. congruence.
Qed.

Lemma unfetched_cells_do_not_matter_witness :
  exists s' tr',
    loop 68 (boot (assembler (repeat (-1) 256))) [] = Halted s' tr' /\
    aget (ram s') 64 = Some 55.
Proof.
  destruct (proj2 unfetched_cells_do_not_matter (repeat (-1) 256) eq_refl)
    as (s' & tr' & Hl & Hram & _).
  exists s', tr'. split; [exact Hl | exact Hram].
Defined.
